(** * EVMReadableTrace: the trace decoder of [main.py], embedded and verified

    The development follows [src/main.py] (class [EVMTraceParser]).

    Conventions of the embedding.
    - A Python [str] is a Rocq [string]; the program's strings are ASCII
      (hex data, addresses, type tags, call kinds).  [lower], [upper],
      [encode] and [repr] leave characters above 127 alone.
    - A Python [bytes] is a [list Z] of values in [0, 256).
    - A Python [float] is a sign with an integer mantissa and a binary
      exponent; division and [repr] are computed in exact integer
      arithmetic.
    - A Python [dict] used as a map is a stdpp [gmap]; a JSON object read
      through [.get(key, default)] is a record of [option] fields, [None]
      standing for an absent key, and a present field holds a value of the
      JSON type the [trace_transaction] and [getsourcecode] answers give it.
    - The parser object's mutable part ([contract_cache]) and the log of
      requests sent to the block explorer are threaded through a state and
      exception monad; [try]/[except] is [try_except].
    - The libraries the program calls are modelled by what they compute:
      [eth_utils.keccak] and [to_checksum_address] are executable here,
      [eth_abi.decode], [json.loads], the HTTP request and the file system
      are fields of a [World]. *)

From Stdlib Require Import ZArith Lia Ascii String List Bool DecimalString.
From stdpp Require Import base option list strings gmap.

Local Open Scope string_scope.
Local Open Scope Z_scope.

(** ** Keccak-256 ([eth_utils.keccak]) *)

Module Keccak.

Definition mask64 : Z := 0xFFFFFFFFFFFFFFFF.

Definition rotl64 (v n : Z) : Z :=
  Z.lor (Z.land (Z.shiftl v n) mask64) (Z.shiftr v (64 - n)).

Definition round_constants : list Z :=
  [ 0x0000000000000001; 0x0000000000008082; 0x800000000000808A;
    0x8000000080008000; 0x000000000000808B; 0x0000000080000001;
    0x8000000080008081; 0x8000000000008009; 0x000000000000008A;
    0x0000000000000088; 0x0000000080008009; 0x000000008000000A;
    0x000000008000808B; 0x800000000000008B; 0x8000000000008089;
    0x8000000000008003; 0x8000000000008002; 0x8000000000000080;
    0x000000000000800A; 0x800000008000000A; 0x8000000080008081;
    0x8000000000008080; 0x0000000080000001; 0x8000000080008008 ].

(** Rotation offsets, row [x] holds the offsets of lanes [(x, 0..4)]. *)
Definition rotation_offsets : list (list Z) :=
  [ [ 0; 36;  3; 41; 18];
    [ 1; 44; 10; 45;  2];
    [62;  6; 43; 15; 61];
    [28; 55; 25; 21; 56];
    [27; 20; 39;  8; 14] ].

Definition offset (x y : nat) : Z :=
  nth y (nth x rotation_offsets []) 0.

(** The state is 25 lanes of 64 bits, lane [(x, y)] at index [x + 5 y]. *)
Definition lane (st : list Z) (x y : nat) : Z :=
  nth ((x mod 5) + 5 * (y mod 5))%nat st 0.

Definition lanes (f : nat -> nat -> Z) : list Z :=
  map (fun i => f (i mod 5)%nat (i / 5)%nat) (seq 0 25).

Definition theta (st : list Z) : list Z :=
  let c := map (fun x => fold_left Z.lxor (map (lane st x) (seq 0 5)) 0) (seq 0 5) in
  let d x := Z.lxor (nth ((x + 4) mod 5)%nat c 0)
                    (rotl64 (nth ((x + 1) mod 5)%nat c 0) 1) in
  lanes (fun x y => Z.lxor (lane st x y) (d x)).

Definition rho_pi (st : list Z) : list Z :=
  lanes (fun x y =>
    let x0 := ((x + 3 * y) mod 5)%nat in
    rotl64 (lane st x0 x) (offset x0 x)).

Definition chi (st : list Z) : list Z :=
  lanes (fun x y =>
    Z.lxor (lane st x y)
           (Z.land (Z.lxor (lane st (x + 1) y) mask64) (lane st (x + 2) y))).

Definition iota (rc : Z) (st : list Z) : list Z :=
  match st with
  | [] => []
  | a :: rest => Z.lxor a rc :: rest
  end.

Definition keccak_round (st : list Z) (rc : Z) : list Z :=
  iota rc (chi (rho_pi (theta st))).

Definition keccak_f (st : list Z) : list Z :=
  fold_left keccak_round round_constants st.

(** Little-endian lanes. *)
Fixpoint le_word (bs : list Z) : Z :=
  match bs with
  | [] => 0
  | b :: rest => Z.lor b (Z.shiftl (le_word rest) 8)
  end.

Fixpoint le_bytes (n : nat) (w : Z) : list Z :=
  match n with
  | O => []
  | S n' => Z.land w 0xFF :: le_bytes n' (Z.shiftr w 8)
  end.

Definition rate : nat := 136.

(** [pad10*1] with the original Keccak domain byte [0x01]. *)
Definition pad (msg : list Z) : list Z :=
  let q := (rate - (length msg mod rate))%nat in
  if (q =? 1)%nat then msg ++ [0x81]
  else msg ++ [0x01] ++ repeat 0 (q - 2) ++ [0x80].

Fixpoint chunks (fuel : nat) (n : nat) (bs : list Z) : list (list Z) :=
  match fuel with
  | O => []
  | S fuel' =>
      match bs with
      | [] => []
      | _ => firstn n bs :: chunks fuel' n (skipn n bs)
      end
  end.

Definition block_lanes (block : list Z) : list Z :=
  map (fun i => le_word (firstn 8 (skipn (8 * i) block))) (seq 0 17)
  ++ repeat 0 8%nat.

Definition absorb (st block : list Z) : list Z :=
  keccak_f (map (fun p => Z.lxor (fst p) (snd p)) (combine st (block_lanes block))).

Definition keccak256 (msg : list Z) : list Z :=
  let padded := pad msg in
  let st := fold_left absorb (chunks (length padded) rate padded) (repeat 0 25%nat) in
  flat_map (le_bytes 8) (firstn 4 st).

End Keccak.

(** ** Python string and number primitives *)

Definition encode (s : string) : list Z :=
  map (fun c => Z.of_N (N_of_ascii c)) (list_ascii_of_string s).

Definition hex_digit (n : Z) : ascii :=
  nth (Z.to_nat n) (list_ascii_of_string "0123456789abcdef") "0"%char.

(** [bytes.hex()] *)
Fixpoint hex (bs : list Z) : string :=
  match bs with
  | [] => ""
  | b :: rest => String (hex_digit (b / 16)) (String (hex_digit (b mod 16)) (hex rest))
  end.

(** *** Characters and slices *)

Definition code (c : ascii) : Z := Z.of_N (N_of_ascii c).
Definition chr (n : Z) : ascii := ascii_of_N (Z.to_N n).

Definition in_range (lo hi : Z) (c : ascii) : bool :=
  (lo <=? code c) && (code c <=? hi).

Definition lower_char (c : ascii) : ascii :=
  if in_range 65 90 c then chr (code c + 32) else c.
Definition upper_char (c : ascii) : ascii :=
  if in_range 97 122 c then chr (code c - 32) else c.

Fixpoint map_string (f : ascii -> ascii) (s : string) : string :=
  match s with
  | EmptyString => EmptyString
  | String c r => String (f c) (map_string f r)
  end.

(** [s.lower()], [s.upper()] *)
Definition lower : string -> string := map_string lower_char.
Definition upper : string -> string := map_string upper_char.

(** [s.startswith(p)], [s.endswith(p)] *)
Definition startswith (s p : string) : bool := String.prefix p s.

(** [s[:n]], [s[n:]] for [n >= 0] *)
Fixpoint take_str (n : nat) (s : string) : string :=
  match n, s with
  | S n', String c r => String c (take_str n' r)
  | _, _ => EmptyString
  end.
Fixpoint drop_str (n : nat) (s : string) : string :=
  match n, s with
  | S n', String _ r => drop_str n' r
  | _, _ => s
  end.

Definition endswith (s p : string) : bool :=
  (String.length p <=? String.length s)%nat &&
  String.eqb (drop_str (String.length s - String.length p) s) p.

(** [s[:-n]] *)
Definition drop_last (n : nat) (s : string) : string :=
  take_str (String.length s - n) s.

(** [sep.join(parts)] *)
Fixpoint join (sep : string) (parts : list string) : string :=
  match parts with
  | [] => ""
  | [p] => p
  | p :: rest => p +:+ sep +:+ join sep rest
  end.

(** [s * n] *)
Fixpoint repeat_str (s : string) (n : nat) : string :=
  match n with
  | O => ""
  | S n' => s +:+ repeat_str s n'
  end.

(** *** Integers as text *)

(** [str(n)] for an [int] *)
Definition str_int (z : Z) : string := NilZero.string_of_int (Z.to_int z).

(** Digits grouped by three from the right. *)
Fixpoint group3 (fuel : nat) (rev_digits : list ascii) : list ascii :=
  match fuel with
  | O => rev_digits
  | S fuel' =>
      match rev_digits with
      | a :: b :: c :: (_ :: _) as rest =>
          a :: b :: c :: ","%char :: group3 fuel' rest
      | _ => rev_digits
      end
  end.

(** [f"{n:,}"] for an [int] *)
Definition format_thousands (z : Z) : string :=
  let digits := list_ascii_of_string (str_int (Z.abs z)) in
  let grouped := string_of_list_ascii (rev (group3 (length digits) (rev digits))) in
  if z <? 0 then "-" +:+ grouped else grouped.

(** White space as [int()] sees it in an ASCII string. *)
Definition is_space (c : ascii) : bool := in_range 9 13 c || in_range 32 32 c.

Fixpoint lstrip (l : list ascii) : list ascii :=
  match l with
  | c :: r => if is_space c then lstrip r else l
  | [] => []
  end.
Definition strip (l : list ascii) : list ascii := rev (lstrip (rev (lstrip l))).

Definition digit_value (c : ascii) : option Z :=
  if in_range 48 57 c then Some (code c - 48)
  else if in_range 97 122 c then Some (code c - 87)
  else if in_range 65 90 c then Some (code c - 55)
  else None.

(** Digits of the given base, single underscores allowed between them. *)
Fixpoint int_digits (base : Z) (after_underscore : bool) (acc : Z)
    (l : list ascii) : option Z :=
  match l with
  | [] => if after_underscore then None else Some acc
  | c :: r =>
      if Ascii.eqb c "_" then
        if after_underscore then None else int_digits base true acc r
      else
        match digit_value c with
        | Some d => if d <? base then int_digits base false (acc * base + d) r else None
        | None => None
        end
  end.

Definition int_unsigned (base : Z) (l : list ascii) : option Z :=
  let body :=
    match l with
    | "0"%char :: x :: r =>
        if (base =? 16) && (Ascii.eqb x "x" || Ascii.eqb x "X") then
          match r with
          | "_"%char :: r' => r'
          | _ => r
          end
        else l
    | _ => l
    end in
  match body with
  | [] => None
  | c :: _ => if Ascii.eqb c "_" then None else int_digits base false 0 body
  end.

(** [int(s, base)] for base 10 and 16 on an ASCII string; [None] is
    [ValueError].  (The limit recent interpreters put on the number of
    decimal digits is not modelled.) *)
Definition py_int (base : Z) (s : string) : option Z :=
  match strip (list_ascii_of_string s) with
  | "-"%char :: r => Z.opp <$> int_unsigned base r
  | "+"%char :: r => int_unsigned base r
  | l => int_unsigned base l
  end.

(** *** Floats: [int / int] and [repr(float)]

    A finite double is a sign and a magnitude [mant * 2 ^ expo], with
    [2^52 <= mant < 2^53] (or [expo = -1074] below the normal range, and
    [mant = 0] for zero).  Python's [int / int] is the correctly rounded
    quotient, and [repr] prints the shortest decimal that reads back. *)

Module PyFloat.

Record float := { neg : bool; mant : Z; expo : Z }.

Definition zero : float := {| neg := false; mant := 0; expo := 0 |}.

(** [0 < f] *)
Definition positive (f : float) : bool := negb (neg f) && (0 <? mant f).

(** Nearest integer to [n / d], ties to even ([0 <= n], [0 < d]). *)
Definition round_half_even (n d : Z) : Z :=
  let q := n / d in
  let r := n mod d in
  if 2 * r <? d then q
  else if d <? 2 * r then q + 1
  else if Z.even q then q else q + 1.

Definition scale (p q e : Z) : Z * Z :=
  if e <? 0 then (p * 2 ^ (- e), q) else (p, q * 2 ^ e).

(** The double nearest to [p / q] ([0 <= p], [0 < q]); [None] when it is
    too large for a float. *)
Definition round_ratio (p q : Z) : option (Z * Z) :=
  if p =? 0 then Some (0, 0) else
  let e0 := Z.log2 p - Z.log2 q - 52 in
  let e1 := if (let '(n, d) := scale p q e0 in n / d <? 2 ^ 52) then e0 - 1 else e0 in
  let e := Z.max e1 (-1074) in
  let '(n, d) := scale p q e in
  let m := round_half_even n d in
  let '(m, e) := if m =? 2 ^ 53 then (2 ^ 52, e + 1) else (m, e) in
  if 971 <? e then None else Some (m, e).

(** [a / b] for ints with [0 < b]; [None] is [OverflowError]. *)
Definition true_divide (a b : Z) : option float :=
  match round_ratio (Z.abs a) b with
  | Some (m, e) => Some {| neg := a <? 0; mant := m; expo := e |}
  | None => None
  end.

(** The decimal [c * 10 ^ k] as a fraction. *)
Definition decimal (c k : Z) : Z * Z :=
  if k <? 0 then (c, 10 ^ (- k)) else (c * 10 ^ k, 1).

Definition reads_back (m e c k : Z) : bool :=
  let '(p, q) := decimal c k in
  match round_ratio p q with
  | Some (m', e') => (m' =? m) && (e' =? e)
  | None => false
  end.

(** [10 ^ t <= vn / vd] *)
Definition le_pow10 (t vn vd : Z) : bool :=
  if t <? 0 then vd <=? vn * 10 ^ (- t) else 10 ^ t * vd <=? vn.

Fixpoint climb (fuel : nat) (t vn vd : Z) : Z :=
  match fuel with
  | O => t
  | S fuel' => if le_pow10 (t + 1) vn vd then climb fuel' (t + 1) vn vd else t
  end.

Definition floor_log10 (vn vd : Z) : Z :=
  climb 8 ((Z.log2 vn - Z.log2 vd - 1) * 30103 / 100000 - 1) vn vd.

(** The best decimal with [n] digits, when one reads back. *)
Definition candidate (m e vn vd t n : Z) : option (Z * Z) :=
  let k := t - n + 1 in
  let '(xn, xd) := if k <? 0 then (vn * 10 ^ (- k), vd) else (vn, vd * 10 ^ k) in
  let lo := xn / xd in
  let r := xn mod xd in
  let hi := lo + 1 in
  let lo_ok := reads_back m e lo k in
  let hi_ok := reads_back m e hi k in
  let lo_first :=
    if 2 * r <? xd then true else if xd <? 2 * r then false else Z.even lo in
  match lo_ok, hi_ok with
  | true, true => Some (if lo_first then lo else hi, k)
  | true, false => Some (lo, k)
  | false, true => Some (hi, k)
  | false, false => None
  end.

Fixpoint shortest (fuel : nat) (m e vn vd t n : Z) : Z * Z :=
  match fuel with
  | O => (0, 0)
  | S fuel' =>
      match candidate m e vn vd t n with
      | Some ck => ck
      | None => shortest fuel' m e vn vd t (n + 1)
      end
  end.

Fixpoint strip_zeros (rev_digits : list ascii) (k : Z) : list ascii * Z :=
  match rev_digits with
  | "0"%char :: (_ :: _) as rest => strip_zeros rest (k + 1)
  | _ => (rev_digits, k)
  end.

(** Digits and position of the decimal point of a positive double:
    the value is [0.d1 d2 ... dn * 10 ^ decpt]. *)
Definition digits_of (m e : Z) : string * Z :=
  let '(vn, vd) := scale m 1 (- e) in
  let t := floor_log10 vn vd in
  let '(c, k) := shortest 17 m e vn vd t 1 in
  let '(rd, k') := strip_zeros (rev (list_ascii_of_string (str_int c))) k in
  (string_of_list_ascii (rev rd), Z.of_nat (length rd) + k').

Definition exponent_text (x : Z) : string :=
  (if x <? 0 then "-" else "+") +:+
  (if Z.abs x <? 10 then "0" else "") +:+ str_int (Z.abs x).

Definition layout (digits : string) (decpt : Z) : string :=
  let n := Z.of_nat (String.length digits) in
  if (decpt <=? -4) || (16 <? decpt) then
    take_str 1 digits +:+
    (if 1 <? n then "." +:+ drop_str 1 digits else "") +:+
    "e" +:+ exponent_text (decpt - 1)
  else if decpt <=? 0 then
    "0." +:+ repeat_str "0" (Z.to_nat (- decpt)) +:+ digits
  else if decpt <? n then
    take_str (Z.to_nat decpt) digits +:+ "." +:+ drop_str (Z.to_nat decpt) digits
  else
    digits +:+ repeat_str "0" (Z.to_nat (decpt - n)) +:+ ".0".

(** [repr(f)], which is also [str(f)] and [f"{f}"]. *)
Definition repr (f : float) : string :=
  if mant f =? 0 then (if neg f then "-0.0" else "0.0")
  else
    let '(digits, decpt) := digits_of (mant f) (expo f) in
    (if neg f then "-" else "") +:+ layout digits decpt.

(** For the examples: the [repr] of [a / b], or the name of the exception. *)
Definition repr_ratio (a b : Z) : string :=
  match true_divide a b with
  | Some f => repr f
  | None => "OverflowError"
  end.

End PyFloat.

(** *** Bytes and dynamically typed values *)

Definition hex_value (c : ascii) : option Z :=
  match digit_value c with
  | Some d => if d <? 16 then Some d else None
  | None => None
  end.

(** [bytes.fromhex(s)]: pairs of hex digits, ASCII white space allowed
    between pairs; [None] is [ValueError]. *)
Fixpoint fromhex_list (l : list ascii) : option (list Z) :=
  match l with
  | [] => Some []
  | c :: r =>
      if is_space c then fromhex_list r
      else
        match r with
        | [] => None
        | c' :: r' =>
            match hex_value c, hex_value c' with
            | Some h, Some l' => cons (16 * h + l') <$> fromhex_list r'
            | _, _ => None
            end
        end
  end.

Definition fromhex (s : string) : option (list Z) :=
  fromhex_list (list_ascii_of_string s).

Definition squote : ascii := chr 39.
Definition dquote : ascii := chr 34.
Definition backslash : ascii := chr 92.

Definition char_str (c : ascii) : string := String c EmptyString.

Definition contains (c : ascii) (l : list ascii) : bool :=
  existsb (Ascii.eqb c) l.

(** The quote [repr] picks for a [str] or [bytes] literal. *)
Definition repr_quote (l : list ascii) : ascii :=
  if contains squote l && negb (contains dquote l) then dquote else squote.

(** One character of a [repr]: control characters and 127 are written
    [\xNN]; so are the codes above 127 in a [bytes] literal. *)
Definition repr_char (is_bytes : bool) (quote c : ascii) : string :=
  if Ascii.eqb c quote || Ascii.eqb c backslash then String backslash (char_str c)
  else if code c =? 9 then String backslash "t"
  else if code c =? 10 then String backslash "n"
  else if code c =? 13 then String backslash "r"
  else if (code c <? 32) || (code c =? 127) || (is_bytes && (127 <? code c)) then
    String backslash (String "x" (String (hex_digit (code c / 16))
                                         (char_str (hex_digit (code c mod 16)))))
  else char_str c.

Definition repr_literal (is_bytes : bool) (l : list ascii) : string :=
  let q := repr_quote l in
  char_str q +:+ String.concat "" (map (repr_char is_bytes q) l) +:+ char_str q.

(** [repr(s)] for a [str] *)
Definition repr_str (s : string) : string :=
  repr_literal false (list_ascii_of_string s).

(** [repr(b)] for a [bytes] *)
Definition repr_bytes (bs : list Z) : string :=
  "b" +:+ repr_literal true (map chr bs).

(** The values [eth_abi.decode] hands to the formatter. *)
#[local] Set Warnings "-register-all".
Inductive pyval :=
  | PInt (z : Z)
  | PBool (b : bool)
  | PBytes (bs : list Z)
  | PStr (s : string)
  | PList (l : list pyval)
  | PTuple (l : list pyval).

Definition repr_bool (b : bool) : string := if b then "True" else "False".

(** [repr(v)] *)
Fixpoint py_repr (v : pyval) : string :=
  match v with
  | PInt z => str_int z
  | PBool b => repr_bool b
  | PBytes bs => repr_bytes bs
  | PStr s => repr_str s
  | PList l => "[" +:+ join ", " (map py_repr l) +:+ "]"
  | PTuple [x] => "(" +:+ py_repr x +:+ ",)"
  | PTuple l => "(" +:+ join ", " (map py_repr l) +:+ ")"
  end.

(** [str(v)] *)
Definition py_str (v : pyval) : string :=
  match v with
  | PStr s => s
  | _ => py_repr v
  end.

(** ** Data model *)

Module FunctionInfo.
Record t := mk {
  name : string;
  signature : string;
  input_types : list string;
  output_types : list string;
  input_names : list string;
  output_names : list string
}.
End FunctionInfo.

Module ContractInfo.
Record t := mk {
  address : string;
  name : string;
  functions : gmap string FunctionInfo.t;
  abi : string
}.
End ContractInfo.

(** One entry of an ABI's [inputs] or [outputs]. *)
Record AbiParam := {
  param_type : option string;
  param_name : option string
}.

(** One entry of a contract ABI. *)
Record AbiItem := {
  abi_type : option string;
  abi_name : option string;
  abi_inputs : option (list AbiParam);
  abi_outputs : option (list AbiParam)
}.

(** [d.get(key, default)] *)
Definition get {A} (field : option A) (default : A) : A :=
  match field with
  | Some v => v
  | None => default
  end.

(** ** Signature resolver: [parse_abi] *)

Definition signature_string (name : string) (input_types : list string) : string :=
  name +:+ "(" +:+ join "," input_types +:+ ")".

Definition signature_of (signature_string : string) : string :=
  let signature_hash := hex (Keccak.keccak256 (encode signature_string)) in
  "0x" +:+ take_str 8 signature_hash.

Definition is_function (item : AbiItem) : bool :=
  bool_decide (abi_type item = Some "function").

Definition function_info (item : AbiItem) : FunctionInfo.t :=
  let name := get (abi_name item) "" in
  let inputs := get (abi_inputs item) [] in
  let outputs := get (abi_outputs item) [] in
  let input_types := map (fun inp => get (param_type inp) "") inputs in
  let input_names := map (fun inp => get (param_name inp) "") inputs in
  let output_types := map (fun out => get (param_type out) "") outputs in
  let output_names := map (fun out => get (param_name out) "") outputs in
  let signature := signature_of (signature_string name input_types) in
  FunctionInfo.mk name signature input_types output_types input_names output_names.

Definition parse_abi_step (functions : gmap string FunctionInfo.t) (item : AbiItem)
    : gmap string FunctionInfo.t :=
  if is_function item then
    let function_info := function_info item in
    <[FunctionInfo.signature function_info := function_info]> functions
  else functions.

Definition parse_abi (abi : list AbiItem) : gmap string FunctionInfo.t :=
  fold_left parse_abi_step abi ∅.

Definition transfer_item : AbiItem :=
  {| abi_type := Some "function"; abi_name := Some "transfer";
     abi_inputs := Some [ {| param_type := Some "address"; param_name := Some "to" |};
                          {| param_type := Some "uint256"; param_name := Some "amount" |} ];
     abi_outputs := Some [ {| param_type := Some "bool"; param_name := None |} ] |}.

(** ** Checksum addresses ([eth_utils.to_checksum_address], EIP-55) *)

Definition is_hex_string (s : string) : bool :=
  forallb (fun c => bool_decide (is_Some (hex_value c))) (list_ascii_of_string s).

Fixpoint checksum_case (body hash : list ascii) : list ascii :=
  match body, hash with
  | c :: body', h :: hash' =>
      (if 7 <? get (hex_value h) 0 then upper_char c else c) :: checksum_case body' hash'
  | _, _ => []
  end.

(** [None] is the [ValueError] raised for a string that is not an
    optionally [0x]-prefixed run of 40 hex digits. *)
Definition to_checksum_address (value : string) : option string :=
  let norm := lower value in
  let body := if startswith norm "0x" then drop_str 2 norm else norm in
  if (String.length body =? 40)%nat && is_hex_string body then
    let address_hash := hex (Keccak.keccak256 (encode body)) in
    Some ("0x" +:+ string_of_list_ascii
            (checksum_case (list_ascii_of_string body) (list_ascii_of_string address_hash)))
  else None.

(** ** The parser object and its collaborators *)

(** Exceptions the rendering path can meet; all are subclasses of
    [Exception]. *)
Inductive exn :=
  | ValueError      (* int(), bytes.fromhex, to_checksum_address, json.loads *)
  | OverflowError   (* int / int too large for a float *)
  | OSError         (* writing a source file *)
  | DecodingError.  (* eth_abi.decode *)

(** An entry of the [result] list of a [getsourcecode] answer. *)
Record EtherscanResult := {
  ContractName : option string;
  SourceCode : option string;
  ABI : option string
}.

(** What lies outside the program.
    - [_make_etherscan_request log chainid address]: what
      [_make_etherscan_request] returns for a [getsourcecode] request, given
      the requests sent before it: [None] when it returns [None] or an
      answer without [result], otherwise the [result] list.
    - [save_source_code name source]: [true] when [save_source_code]
      returns, [false] when writing the file raises.
    - [json_loads abi_str]: the ABI entries [json.loads] yields, [None] when
      it raises (or yields something [parse_abi] cannot walk).
    - [decode types data]: [eth_abi.decode], [None] when it raises. *)
Record World := {
  _make_etherscan_request : list (Z * string) -> Z -> string -> option (list EtherscanResult);
  save_source_code : string -> string -> bool;
  json_loads : string -> option (list AbiItem);
  decode : list string -> list Z -> option (list pyval)
}.

(** [contract_cache] maps a lower-cased address to a [ContractInfo] or to
    Python's [None]; [requests] logs the [(chainid, address)] of every
    request handed to [_make_etherscan_request]. *)
Record state := {
  contract_cache : gmap string (option ContractInfo.t);
  requests : list (Z * string)
}.

Definition init_state : state := {| contract_cache := ∅; requests := [] |}.

Inductive outcome (A : Type) :=
  | Returned (a : A)
  | Raised (e : exn).
Arguments Returned {A} a.
Arguments Raised {A} e.

Definition M (A : Type) : Type := state -> outcome A * state.

Definition ret {A} (a : A) : M A := fun st => (Returned a, st).
Definition raise {A} (e : exn) : M A := fun st => (Raised e, st).
Definition bind {A B} (c : M A) (k : A -> M B) : M B :=
  fun st =>
    match c st with
    | (Returned a, st') => k a st'
    | (Raised e, st') => (Raised e, st')
    end.
(** [try: body except Exception: handler] *)
Definition try_except {A} (body : M A) (handler : exn -> M A) : M A :=
  fun st =>
    match body st with
    | (Returned a, st') => (Returned a, st')
    | (Raised e, st') => handler e st'
    end.
Definition of_option {A} (e : exn) (o : option A) : M A :=
  match o with
  | Some a => ret a
  | None => raise e
  end.

Notation "'do' x <- c ;; k" := (bind c (fun x => k))
  (at level 10, x name, c at level 99, k at level 200, only parsing).

(** A list comprehension [[f(x) for x in l]] whose body has effects. *)
Definition map_M {A B} (f : A -> M B) : list A -> M (list B) :=
  fix each (l : list A) : M (list B) :=
    match l with
    | [] => ret []
    | x :: rest =>
        do y <- f x ;;
        do ys <- each rest ;;
        ret (y :: ys)
    end.

Definition chain_ids : gmap string Z :=
  <["ETH" := 1]> (<["BSC" := 56]> (<["POLYGON" := 137]> ∅)).

Definition nonempty (s : string) : bool := negb (String.eqb s "").

(** [get_function_signature] *)
Definition get_function_signature (input_data : string) : string :=
  if negb (nonempty input_data) || String.eqb input_data "0x" then "<empty>"
  else if (10 <=? String.length input_data)%nat then take_str 10 input_data
  else input_data.

(** The loop body shared by both decoders: pair types, names and values,
    naming an unnamed parameter [prefix ++ index]. *)
Fixpoint name_params (prefix : string) (i : nat) (types names : list string)
    (decoded : list pyval) : list (string * string * pyval) :=
  match types, names, decoded with
  | param_type :: types', param_name :: names', value :: decoded' =>
      (if nonempty param_name then param_name else prefix +:+ str_int (Z.of_nat i),
       param_type, value) :: name_params prefix (S i) types' names' decoded'
  | _, _, _ => []
  end.

Module Action.
Record t := mk {
  callType : option string;
  to : option string;
  value : option string;
  input : option string;
  from : option string
}.
Definition empty : t := mk None None None None None.
End Action.

Module Result.
Record t := mk {
  output : option string;
  address : option string
}.
Definition empty : t := mk None None.
End Result.

Module TraceItem.
Record t := mk {
  action : option Action.t;
  result : option Result.t;
  type : option string;
  traceAddress : option (list Z)
}.
End TraceItem.

Module TraceData.
Record t := mk { result : option (list TraceItem.t) }.
End TraceData.

Section Parser.

Variable world : World.

Definition cache_store (address : string) (entry : option ContractInfo.t) : M unit :=
  fun st => (Returned tt,
             {| contract_cache := <[address := entry]> (contract_cache st);
                requests := requests st |}).

(** The call [self._make_etherscan_request(params)], logged. *)
Definition etherscan_lookup (chain_id : Z) (address : string)
    : M (option (list EtherscanResult)) :=
  fun st => (Returned (_make_etherscan_request world (requests st) chain_id address),
             {| contract_cache := contract_cache st;
                requests := requests st ++ [(chain_id, address)] |}).

(** [get_contract_info] *)
Definition get_contract_info (address chain : string) : M (option ContractInfo.t) :=
  let address := lower address in
  fun st =>
    match contract_cache st !! address with
    | Some cached => ret cached st
    | None =>
        if negb (startswith address "0x") || negb (String.length address =? 42)%nat
        then ret None st
        else
          try_except
            (let chain_id := get (chain_ids !! chain) 1 in
             do data <- etherscan_lookup chain_id address ;;
             match data with
             | None | Some [] => ret None
             | Some (result :: _) =>
                 let contract_name := get (ContractName result) "" in
                 let source_code := get (SourceCode result) "" in
                 let abi_str := get (ABI result) "" in
                 if negb (nonempty contract_name) then
                   do _ <- cache_store address None ;;
                   ret None
                 else
                   do _ <- (if nonempty source_code
                            then if save_source_code world contract_name source_code
                                 then ret tt else raise OSError
                            else ret tt) ;;
                   do functions <-
                     (if nonempty abi_str
                         && negb (String.eqb abi_str "Contract source code not verified")
                      then try_except
                             (do abi <- of_option ValueError (json_loads world abi_str) ;;
                              ret (parse_abi abi))
                             (fun _ => ret ∅)
                      else ret ∅) ;;
                   let contract_info :=
                     ContractInfo.mk address contract_name functions abi_str in
                   do _ <- cache_store address (Some contract_info) ;;
                   ret (Some contract_info)
             end)
            (fun _ => ret None)
            st
    end.

(** [get_contract_name] *)
Definition get_contract_name (address chain : string) : M string :=
  do contract_info <- get_contract_info address chain ;;
  match contract_info with
  | Some info => ret (ContractInfo.name info)
  | None => ret address
  end.

(** [get_function_name] *)
Definition get_function_name (address input_data chain : string) : M string :=
  let signature := get_function_signature input_data in
  if String.eqb signature "<empty>" then ret "<empty>"
  else
    do contract_info <- get_contract_info address chain ;;
    match contract_info with
    | Some info =>
        match ContractInfo.functions info !! signature with
        | Some f => ret (FunctionInfo.name f)
        | None => ret signature
        end
    | None => ret signature
    end.

(** [decode_input_data] *)
Definition decode_input_data (address input_data chain : string)
    : M (list (string * string * pyval)) :=
  if negb (nonempty input_data) || String.eqb input_data "0x" then ret []
  else
    let signature := get_function_signature input_data in
    do contract_info <- get_contract_info address chain ;;
    match contract_info with
    | None => ret []
    | Some info =>
        match ContractInfo.functions info !! signature with
        | None => ret []
        | Some function_info =>
            try_except
              (let param_data := drop_str 10 input_data in
               if negb (nonempty param_data)
                  || bool_decide (FunctionInfo.input_types function_info = [])
               then ret []
               else
                 do raw <- of_option ValueError (fromhex param_data) ;;
                 do decoded <- of_option DecodingError
                     (decode world (FunctionInfo.input_types function_info) raw) ;;
                 ret (name_params "param" 0
                        (FunctionInfo.input_types function_info)
                        (FunctionInfo.input_names function_info) decoded))
              (fun _ => ret [])
        end
    end.

(** [decode_output_data] *)
Definition decode_output_data (address input_data output_data chain : string)
    : M (list (string * string * pyval)) :=
  if negb (nonempty output_data) || String.eqb output_data "0x" then ret []
  else
    let signature := get_function_signature input_data in
    do contract_info <- get_contract_info address chain ;;
    match contract_info with
    | None => ret []
    | Some info =>
        match ContractInfo.functions info !! signature with
        | None => ret []
        | Some function_info =>
            try_except
              (if bool_decide (FunctionInfo.output_types function_info = [])
               then ret []
               else
                 do raw <- of_option ValueError (fromhex (drop_str 2 output_data)) ;;
                 do decoded <- of_option DecodingError
                     (decode world (FunctionInfo.output_types function_info) raw) ;;
                 ret (name_params "output" 0
                        (FunctionInfo.output_types function_info)
                        (FunctionInfo.output_names function_info) decoded))
              (fun _ => ret [])
        end
    end.

(** [format_value]; the recursion is on the value, as in the source the
    array branch descends into the elements of [value]. *)
Fixpoint format_value (value : pyval) (value_type chain : string) {struct value}
    : M string :=
  if String.eqb value_type "address" then
    do addr_str <-
      match value with
      | PStr s => of_option ValueError (to_checksum_address s)
      | _ => ret (py_str value)
      end ;;
    get_contract_name addr_str chain
  else if startswith value_type "uint" || startswith value_type "int" then
    match value with
    | PInt z => ret (format_thousands z)
    | PBool b => ret (format_thousands (if b then 1 else 0))
    | _ => ret (py_str value)
    end
  else if String.eqb value_type "bool" then
    ret (lower (py_str value))
  else if startswith value_type "bytes" then
    match value with
    | PBytes bs => ret ("0x" +:+ hex bs)
    | _ => ret (py_str value)
    end
  else if endswith value_type "[]" then
    match value with
    | PList elems | PTuple elems =>
        let element_type := drop_last 2 value_type in
        do formatted_elements <-
          map_M (fun elem => format_value elem element_type chain) elems ;;
        ret ("[" +:+ join ", " formatted_elements +:+ "]")
    | _ => ret (py_str value)
    end
  else ret (py_str value).

(** The loop of [format_parameters]. *)
Fixpoint format_each (params : list (string * string * pyval)) (chain : string)
    (formatted_params : list string) : M (list string) :=
  match params with
  | [] => ret formatted_params
  | (param_name, param_type, param_value) :: rest =>
      do formatted_value <- format_value param_value param_type chain ;;
      format_each rest chain (formatted_params ++ [param_name +:+ "=" +:+ formatted_value])%list
  end.

(** [format_parameters] *)
Definition format_parameters (params : list (string * string * pyval)) (chain : string)
    : M string :=
  match params with
  | [] => ret ""
  | _ =>
      do formatted_params <- format_each params chain [] ;;
      ret (join ", " formatted_params)
  end.

(** [wei_to_ether] *)
Definition wei_to_ether (wei_value : string) : M PyFloat.float :=
  do wei_int <-
    (if startswith wei_value "0x"
     then of_option ValueError (py_int 16 wei_value)
     else of_option ValueError (py_int 10 wei_value)) ;;
  of_option OverflowError (PyFloat.true_divide wei_int (10 ^ 18)).

(** [format_trace_item]; [None] is the skipped [STATICCALL]. *)
Definition format_trace_item (trace_item : TraceItem.t) (level : nat) (chain : string)
    (include_static_call : bool) : M (option string) :=
  let action := get (TraceItem.action trace_item) Action.empty in
  let result := get (TraceItem.result trace_item) Result.empty in
  let call_type := upper (get (Action.callType action) "") in
  let to_address := get (Action.to action) "" in
  let value := get (Action.value action) "0x0" in
  let input_data := get (Action.input action) "" in
  let output_data := get (Result.output result) "" in
  let is_create := bool_decide (TraceItem.type trace_item = Some "create") in
  let call_type := if is_create then "CREATE" else call_type in
  let to_address := if is_create then get (Result.address result) "" else to_address in
  if negb include_static_call && String.eqb call_type "STATICCALL" then ret None
  else
    let level_str := repeat_str "  " level in
    do value_str <-
      (if negb (String.eqb value "0x0") && negb (String.eqb value "0") then
         do ether_value <- wei_to_ether value ;;
         ret (if PyFloat.positive ether_value
              then "[value: " +:+ PyFloat.repr ether_value +:+ " Ether] "
              else "")
       else ret "") ;;
    do contract_name <- get_contract_name to_address chain ;;
    do function_name <- get_function_name to_address input_data chain ;;
    do input_params <- decode_input_data to_address input_data chain ;;
    do output_params <- decode_output_data to_address input_data output_data chain ;;
    do input_str <- format_parameters input_params chain ;;
    do output_str <- format_parameters output_params chain ;;
    let function_call :=
      contract_name +:+ "." +:+ function_name +:+ "(" +:+ input_str +:+ ")" in
    let output_part :=
      if nonempty output_str then " => (" +:+ output_str +:+ ")" else " => ()" in
    ret (Some (level_str +:+ str_int (Z.of_nat level) +:+ " [" +:+ call_type +:+ "] "
               +:+ value_str +:+ function_call +:+ output_part)).

(** The loop of [parse_trace]: [i] is the index [enumerate] gives the head
    of [items], [formatted_lines] the lines appended so far. *)
Fixpoint parse_loop (i : nat) (items : list TraceItem.t) (chain : string)
    (include_static_call : bool) (formatted_lines : list string) : M (list string) :=
  match items with
  | [] => ret formatted_lines
  | trace_item :: rest =>
      let trace_address := get (TraceItem.traceAddress trace_item) [] in
      let level := length trace_address in
      do formatted_lines <-
        (if (i =? 0)%nat then
           let action := get (TraceItem.action trace_item) Action.empty in
           let from_address := get (Action.from action) "" in
           if nonempty from_address then
             do sender_name <- get_contract_name from_address chain ;;
             ret (formatted_lines ++ ["[Sender] " +:+ sender_name])%list
           else ret formatted_lines
         else ret formatted_lines) ;;
      do formatted_line <- format_trace_item trace_item level chain include_static_call ;;
      parse_loop (S i) rest chain include_static_call
        (match formatted_line with
         | Some line => (formatted_lines ++ [line])%list
         | None => formatted_lines
         end)
  end.

(** [parse_trace] *)
Definition parse_trace (trace_data : TraceData.t) (chain : string)
    (include_static_call : bool) : M (list string) :=
  match get (TraceData.result trace_data) [] with
  | [] => ret ["没有找到 trace 数据"]
  | result => parse_loop 0 result chain include_static_call []
  end.

End Parser.

(** * Vocabulary of the statements *)

(** ** Computations *)

(** [returns c]: the computation never raises. *)
Definition returns {A} (c : M A) : Prop :=
  forall st, exists a st', c st = (Returned a, st').

(** [frames R c]: running [c] moves the state along [R], whether it
    returns or raises. *)
Definition frames (R : relation state) {A} (c : M A) : Prop :=
  forall st, R st (snd (c st)).

(** ** The cache *)

(** Number of requests sent to the block explorer for [address]. *)
Definition lookups (address : string) (st : state) : nat :=
  length (filter (fun r => snd r = address) (requests st)).

(** An entry of the cache for [address] stays, and no request for
    [address] is sent. *)
Definition steady (address : string) (st st' : state) : Prop :=
  forall entry, contract_cache st !! address = Some entry ->
    contract_cache st' !! address = Some entry /\ lookups address st' = lookups address st.

(** The shape [get_contract_info] asks of an address before it sends a
    request. *)
Definition well_formed (address : string) : bool :=
  startswith address "0x" && (String.length address =? 42)%nat.

(** ** Sample worlds and records *)

Definition sample_address : string := "0xdAC17F958D2ee523a2206206994597C13D831ec7".
Definition other_address : string := "0x00000000000000000000000000000000000000aa".

(** A block explorer that never answers, a decoder that always raises. *)
Definition silent_world : World := {|
  _make_etherscan_request := fun _ _ _ => None;
  save_source_code := fun _ _ => true;
  json_loads := fun _ => None;
  decode := fun _ _ => None
|}.

(** A block explorer that knows [sample_address] as a verified token with
    the one function [transfer], and reports every other address as
    unverified; the decoder knows the two type lists of [transfer]. *)
Definition sample_world : World := {|
  _make_etherscan_request := fun _ _ address =>
    if String.eqb address (lower sample_address)
    then Some [ {| ContractName := Some "TetherToken"; SourceCode := Some "contract TetherToken {}";
                   ABI := Some "[transfer]" |} ]
    else Some [ {| ContractName := Some ""; SourceCode := Some "";
                   ABI := Some "Contract source code not verified" |} ];
  save_source_code := fun _ _ => true;
  json_loads := fun abi_str =>
    if String.eqb abi_str "[transfer]" then Some [transfer_item] else None;
  decode := fun types _ =>
    if bool_decide (types = ["address"; "uint256"])
    then Some [PStr "0x5aaeb6053f3e94c9b9a09f33669435e7ef1beaed"; PInt 1000000]
    else if bool_decide (types = ["bool"]) then Some [PBool true]
    else None
|}.

(** ** Values in wei *)

(** The integer [wei_to_ether] divides: [value] read as hex when it starts
    with [0x], as decimal otherwise. *)
Definition parse_wei (value : string) : option Z :=
  if startswith value "0x" then py_int 16 value else py_int 10 value.

(** The [value] of a record is one [format_trace_item] can annotate:
    [0x0], [0], or an integer literal whose quotient by [10 ^ 18] fits a
    float. *)
Definition value_ok (trace_item : TraceItem.t) : bool :=
  let value := get (Action.value (get (TraceItem.action trace_item) Action.empty)) "0x0" in
  String.eqb value "0x0" || String.eqb value "0"
  || match parse_wei value with
     | Some wei_int => bool_decide (is_Some (PyFloat.true_divide wei_int (10 ^ 18)))
     | None => false
     end.

Definition call_item : TraceItem.t :=
  TraceItem.mk
    (Some (Action.mk (Some "call") (Some sample_address) (Some "0xde0b6b3a7640000")
             (Some "0xa9059cbb0000000000000000000000005aaeb6053f3e94c9b9a09f33669435e7ef1beaed00000000000000000000000000000000000000000000000000000000000f4240")
             (Some other_address)))
    (Some (Result.mk
             (Some "0x0000000000000000000000000000000000000000000000000000000000000001")
             None))
    (Some "call") (Some []).

Definition static_item : TraceItem.t :=
  TraceItem.mk
    (Some (Action.mk (Some "staticcall") (Some other_address) (Some "0x0")
             (Some "0x70a08231") (Some sample_address)))
    (Some (Result.mk (Some "0x") None))
    (Some "call") (Some [0; 2]).

Definition nested_item : TraceItem.t :=
  TraceItem.mk
    (Some (Action.mk (Some "delegatecall") (Some other_address) (Some "0x0")
             (Some "0x") (Some sample_address)))
    (Some (Result.mk (Some "0x") None))
    (Some "call") (Some [0; 2]).

(** ** Well-typed values *)

Definition all_digits (s : string) : bool :=
  forallb (in_range 48 57) (list_ascii_of_string s).

(** [uintN] or [intN] *)
Definition int_tag (t : string) : bool :=
  (startswith t "uint" && all_digits (drop_str 4 t))
  || (startswith t "int" && all_digits (drop_str 3 t)).

(** [bytes] or [bytesN] *)
Definition bytes_tag (t : string) : bool :=
  startswith t "bytes" && all_digits (drop_str 5 t).

(** An address as the decoder gives it: [0x] and 40 hex digits. *)
Definition valid_address (s : string) : bool :=
  startswith s "0x" && (String.length s =? 42)%nat && is_hex_string (drop_str 2 s).

(** The size of a fixed array type read from its end: the digits back to
    the opening bracket; what is left is the element type, reversed. *)
Fixpoint strip_size (rev_type : list ascii) : option (list ascii) :=
  match rev_type with
  | [] => None
  | c :: rest =>
      if Ascii.eqb c "[" then Some rest
      else if in_range 48 57 c then strip_size rest
      else None
  end.

(** The element type of an array type: [T] for [T[]] and for [T[k]]; the
    element type may itself be an array type, as in [uint256[2][]]. *)
Definition array_element (t : string) : option string :=
  if endswith t "[]" then Some (drop_last 2 t)
  else
    match rev (list_ascii_of_string t) with
    | c :: size =>
        if Ascii.eqb c "]" then
          option_map (fun element => string_of_list_ascii (rev element)) (strip_size size)
        else None
    | [] => None
    end.

(** The component types between the parentheses of a tuple type, split at
    the commas that are not inside an inner tuple type. *)
Fixpoint split_components (l : list ascii) (nesting : nat) (current : list ascii)
    : list string :=
  match l with
  | [] => [string_of_list_ascii (rev current)]
  | c :: rest =>
      if Ascii.eqb c "," && (nesting =? 0)%nat then
        string_of_list_ascii (rev current) :: split_components rest nesting []
      else if Ascii.eqb c "(" then split_components rest (S nesting) (c :: current)
      else if Ascii.eqb c ")" then split_components rest (pred nesting) (c :: current)
      else split_components rest nesting (c :: current)
  end.

(** The component types of a tuple type [(T1,...,Tn)]. *)
Definition tuple_components (t : string) : option (list string) :=
  if startswith t "(" && endswith t ")" then
    let inner := drop_last 1 (drop_str 1 t) in
    if String.eqb inner "" then Some []
    else Some (split_components (list_ascii_of_string inner) 0 [])
  else None.

Definition forallb2 {A B} (f : A -> B -> bool) : list A -> list B -> bool :=
  fix each (l : list A) (ts : list B) : bool :=
    match l, ts with
    | [], [] => true
    | x :: l', t :: ts' => f x t && each l' ts'
    | _, _ => false
    end.

(** The value has the shape the ABI decoder produces for the type tag: an
    integer for [uintN] and [intN], a boolean for [bool], bytes for [bytes],
    [bytesN] and [function], a [0x] address of 40 hex digits for [address],
    a string for [string], a sequence of values of the element type for an
    array type [T[]] or [T[k]] (whatever the element type, arrays
    included), and one value per component for a tuple type.  The number of
    elements of a fixed array is not constrained. *)
Fixpoint well_typed (v : pyval) (t : string) : bool :=
  match v with
  | PInt _ => int_tag t
  | PBool _ => String.eqb t "bool"
  | PBytes _ => bytes_tag t || String.eqb t "function"
  | PStr s => (String.eqb t "address" && valid_address s) || String.eqb t "string"
  | PList l | PTuple l =>
      match array_element t with
      | Some element_type => forallb (fun elem => well_typed elem element_type) l
      | None =>
          match tuple_components t with
          | Some types => forallb2 well_typed l types
          | None => false
          end
      end
  end.

(** What [eth_abi.decode] returns has the shapes of the types it was given. *)
Definition decoder_well_typed (world : World) : Prop :=
  forall types raw decoded,
    decode world types raw = Some decoded ->
    Forall2 (fun value param_type => well_typed value param_type = true) decoded types.

(** ** Records and their lines *)

(** The locals [format_trace_item] and [parse_trace] compute from a record. *)
Definition item_action (trace_item : TraceItem.t) : Action.t :=
  get (TraceItem.action trace_item) Action.empty.
Definition item_result (trace_item : TraceItem.t) : Result.t :=
  get (TraceItem.result trace_item) Result.empty.
Definition is_create (trace_item : TraceItem.t) : bool :=
  bool_decide (TraceItem.type trace_item = Some "create").
(** [call_type], the label between brackets *)
Definition call_label (trace_item : TraceItem.t) : string :=
  if is_create trace_item then "CREATE"
  else upper (get (Action.callType (item_action trace_item)) "").
(** [to_address] *)
Definition target (trace_item : TraceItem.t) : string :=
  if is_create trace_item then get (Result.address (item_result trace_item)) ""
  else get (Action.to (item_action trace_item)) "".
Definition item_value (trace_item : TraceItem.t) : string :=
  get (Action.value (item_action trace_item)) "0x0".
(** [level = len(traceAddress)] *)
Definition depth (trace_item : TraceItem.t) : nat :=
  length (get (TraceItem.traceAddress trace_item) []).
(** The record is not a [STATICCALL] being filtered out. *)
Definition emitted (include_static_call : bool) (trace_item : TraceItem.t) : bool :=
  include_static_call || negb (String.eqb (call_label trace_item) "STATICCALL").
Definition sender (trace_item : TraceItem.t) : string :=
  get (Action.from (item_action trace_item)) "".

(** Number of spaces a line starts with. *)
Fixpoint leading_spaces (s : string) : nat :=
  match s with
  | String c rest => if Ascii.eqb c " " then S (leading_spaces rest) else 0
  | EmptyString => 0
  end.

(** The start of the line of a record at some level. *)
Definition line_start (level : nat) (label : string) : string :=
  repeat_str "  " level +:+ str_int (Z.of_nat level) +:+ " [" +:+ label +:+ "] ".

(** What [format_trace_item] puts after the label for a [value]. *)
Definition value_annotation (value : string) (value_str : string) : Prop :=
  exists wei_int ether_value,
    parse_wei value = Some wei_int
    /\ PyFloat.true_divide wei_int (10 ^ 18) = Some ether_value
    /\ value_str = if 0 <? wei_int
                   then "[value: " +:+ PyFloat.repr ether_value +:+ " Ether] "
                   else "".

(** The line of a record starts with its depth and its label. *)
Definition renders (trace_item : TraceItem.t) (line : string) : Prop :=
  exists rest, line = line_start (depth trace_item) (call_label trace_item) +:+ rest.

(** The lines [parse_trace] puts before those of the records. *)
Definition is_header (items : list TraceItem.t) (header : list string) : Prop :=
  match items with
  | [] => header = ["没有找到 trace 数据"]
  | _ :: _ => header = [] \/ exists name, header = ["[Sender] " +:+ name]
  end.

(** * Further vocabulary *)

(** ** The cache and the request log *)

(** A cached contract: stored under its own lower-cased address, with a
    name, and a function table whose keys are the ten-character selectors of
    the entries. *)
Definition info_sane (key : string) (info : ContractInfo.t) : Prop :=
  ContractInfo.address info = key
  /\ nonempty (ContractInfo.name info) = true
  /\ forall selector f,
       ContractInfo.functions info !! selector = Some f ->
       FunctionInfo.signature f = selector /\ String.length selector = 10%nat.

Definition cache_sane (st : state) : Prop :=
  forall key entry,
    contract_cache st !! key = Some entry ->
    lower key = key /\ well_formed key = true
    /\ forall info, entry = Some info -> info_sane key info.

(** A request the parser may send: a known chain id and a well-formed,
    lower-cased address. *)
Definition request_ok (request : Z * string) : Prop :=
  (fst request = 1 \/ fst request = 56 \/ fst request = 137)
  /\ well_formed (snd request) = true
  /\ lower (snd request) = snd request.

(** From [st] to [st']: the cache keeps its entries, the log is extended by
    requests the parser may send, and each new cache entry was paid for by a
    request. *)
Definition extends (st st' : state) : Prop :=
  (forall key entry,
     contract_cache st !! key = Some entry -> contract_cache st' !! key = Some entry)
  /\ exists new,
       requests st' = (requests st ++ new)%list
       /\ Forall request_ok new
       /\ (size (contract_cache st') <= size (contract_cache st) + length new)%nat.


(** ** Text of numbers and bytes *)

Definition is_byte (b : Z) : Prop := 0 <= b < 256.

Definition keep_char (c : ascii) : bool := negb (Ascii.eqb c ",").

(** The text without its thousands separators. *)
Definition remove_commas (s : string) : string :=
  string_of_list_ascii (List.filter keep_char (list_ascii_of_string s)).


(** A state in which [other_address] is known to be unverified. *)
Definition known_unverified : state :=
  {| contract_cache := <[other_address := None]> ∅; requests := [] |}.


(** A contract creation whose [action] misleadingly says [staticcall]. *)
Definition create_item : TraceItem.t :=
  TraceItem.mk
    (Some (Action.mk (Some "staticcall") (Some other_address) (Some "0x0")
             (Some "0x6080") (Some other_address)))
    (Some (Result.mk None (Some sample_address)))
    (Some "create") (Some [0]).

(** A call whose [value] is [0x] with no digit. *)
Definition bad_value_item : TraceItem.t :=
  TraceItem.mk
    (Some (Action.mk (Some "call") (Some other_address) (Some "0x")
             (Some "0x") (Some sample_address)))
    None (Some "call") (Some []).


(** * The request loop of [_make_etherscan_request]

    One pass of the loop sends a request and ends in one of the replies
    below; the world decides the reply of each attempt.  The log records the
    requests sent and the back-off sleeps, in seconds ([1.0 * (attempt + 1)]
    and [2.0 * (attempt + 1)] are whole numbers).  The pause of
    [_wait_for_rate_limit], which depends on the wall clock, is not part of
    the log. *)

Module Transport.

(** [needle in haystack] *)
Fixpoint contains_str (needle haystack : string) : bool :=
  String.prefix needle haystack
  || match haystack with
     | EmptyString => false
     | String _ rest => contains_str needle rest
     end.

Section Loop.

(** The parsed JSON answer. *)
Variable D : Type.

Inductive reply :=
  | Answer (status message : option string) (data : D)
      (* [response.json()] returned [data]; [status] and [message] are
         [data.get("status")] and [data.get("message")] *)
  | Timeout             (* [requests.exceptions.Timeout] *)
  | RequestException    (* any other [requests.exceptions.RequestException] *)
  | OtherException.     (* any other [Exception] *)

Inductive event :=
  | Request
  | Sleep (seconds : Z).

Variable replies : nat -> reply.
Variable max_retries : Z.

(** The [for attempt in range(self.max_retries)] loop with [remaining]
    passes to go, and the [return None] after it. *)
Fixpoint request_loop (remaining : nat) (attempt : Z) (log : list event)
    : option D * list event :=
  match remaining with
  | O => (None, log)
  | S remaining' =>
      let log := (log ++ [Request])%list in
      match replies (Z.to_nat attempt) with
      | Answer status message data =>
          if bool_decide (status = Some "1") then (Some data, log)
          else if bool_decide (status = Some "0") then
            let error_msg := get message "Unknown error" in
            if contains_str "rate limit" (lower error_msg) then
              request_loop remaining' (attempt + 1)
                (log ++ [Sleep (1 * (attempt + 1))])%list
            else (None, log)
          else request_loop remaining' (attempt + 1) log
      | Timeout =>
          if attempt <? max_retries - 1 then
            request_loop remaining' (attempt + 1) (log ++ [Sleep (2 * (attempt + 1))])%list
          else request_loop remaining' (attempt + 1) log
      | RequestException =>
          if attempt <? max_retries - 1 then
            request_loop remaining' (attempt + 1) (log ++ [Sleep (1 * (attempt + 1))])%list
          else request_loop remaining' (attempt + 1) log
      | OtherException => (None, log)
      end
  end.

(** [_make_etherscan_request] *)
Definition _make_etherscan_request : option D * list event :=
  request_loop (Z.to_nat max_retries) 0 [].

(** A reply after which the loop goes on to the next attempt. *)
Definition retried (r : reply) : Prop :=
  match r with
  | Answer status message _ =>
      status <> Some "1"
      /\ (status = Some "0" ->
          contains_str "rate limit" (lower (get message "Unknown error")) = true)
  | Timeout | RequestException => True
  | OtherException => False
  end.

Definition count_requests (log : list event) : nat :=
  length (List.filter (fun e => match e with Request => true | Sleep _ => false end) log).

Fixpoint seconds_slept (log : list event) : Z :=
  match log with
  | [] => 0
  | Request :: rest => seconds_slept rest
  | Sleep seconds :: rest => seconds + seconds_slept rest
  end.

End Loop.

Arguments Answer {D} status message data.
Arguments Timeout {D}.
Arguments RequestException {D}.
Arguments OtherException {D}.

End Transport.


(** Three attempts: a time-out, a rate-limit answer, then the result. *)
Definition sample_replies (attempt : nat) : Transport.reply Z :=
  match attempt with
  | 0%nat => Transport.Timeout
  | 1%nat => Transport.Answer (Some "0") (Some "Max rate limit reached") 0
  | 2%nat => Transport.Answer (Some "1") (Some "OK") 42
  | _ => Transport.OtherException
  end.


(** * File names of [save_source_code] *)

(** [\w] of a [str] pattern on the code points below 256: the letters and
    digits and [_], and above 127 the characters for which [isalnum] holds. *)
Definition is_word_char (c : ascii) : bool :=
  in_range 48 57 c || in_range 65 90 c || in_range 97 122 c
  || (code c =? 95)
  || existsb (Z.eqb (code c)) [170; 178; 179; 181; 185; 186; 188; 189; 190]
  || (in_range 192 255 c && negb (code c =? 215) && negb (code c =? 247)).

(** The characters [re.sub(r'[^\w\-_\.]', '_', ...)] leaves in place. *)
Definition is_safe_char (c : ascii) : bool :=
  is_word_char c || Ascii.eqb c "-" || Ascii.eqb c "_" || Ascii.eqb c ".".

(** [safe_name = re.sub(r'[^\w\-_\.]', '_', contract_name)] *)
Definition safe_name (contract_name : string) : string :=
  map_string (fun c => if is_safe_char c then c else "_"%char) contract_name.

(** [filename = f"{self.cache_dir}/{safe_name}.txt"] *)
Definition source_filename (cache_dir contract_name : string) : string :=
  cache_dir +:+ "/" +:+ safe_name contract_name +:+ ".txt".

(** The loop body of [format_parameters]: one [name=value]. *)
Definition format_parameter (world : World) (chain : string)
    (param : string * string * pyval) : M string :=
  let '(param_name, param_type, param_value) := param in
  do formatted_value <- format_value world param_value param_type chain ;;
  ret (param_name +:+ "=" +:+ formatted_value).

(** * Properties *)

(** ** The primitives on known values *)

Example keccak_empty :
  hex (Keccak.keccak256 []) =
  "c5d2460186f7233c927e7db2dcc703c0e500b653ca82273b7bfad8045d85a470".
Proof. vm_compute. reflexivity. Qed.

Example keccak_transfer :
  hex (Keccak.keccak256 (encode "transfer(address,uint256)")) =
  "a9059cbb2ab09eb219583f4a59a5d0623ade346d962bcd4e46b11da047c9049b".
Proof. vm_compute. reflexivity. Qed.

Example py_int_hex : py_int 16 "0xde0b6b3a7640000" = Some (10 ^ 18).
Proof. vm_compute. reflexivity. Qed.
Example py_int_dec : py_int 10 " -1_000 " = Some (-1000).
Proof. vm_compute. reflexivity. Qed.
Example py_int_bad : py_int 10 "0x10" = None /\ py_int 16 "0x" = None /\ py_int 10 "" = None.
Proof. vm_compute. auto. Qed.
Example format_thousands_ex :
  format_thousands 1234567 = "1,234,567" /\ format_thousands (-1000) = "-1,000"
  /\ format_thousands 999 = "999" /\ format_thousands 0 = "0".
Proof. vm_compute. auto. Qed.

Example float_repr_known :
  map (fun wei_int => PyFloat.repr_ratio wei_int (10 ^ 18))
    [1; 10 ^ 18; 15 * 10 ^ 17; 123456789012345678; 10 ^ 34; 10 ^ 13; 2 ^ 256 - 1; -5;
     4 * 10 ^ 326]
  = ["1e-18"; "1.0"; "1.5"; "0.12345678901234568"; "1e+16"; "1e-05";
     "1.157920892373162e+59"; "-5e-18"; "OverflowError"].
Proof. vm_compute. reflexivity. Qed.

Example py_str_list : py_str (PList [PInt 1000; PInt 2000]) = "[1000, 2000]".
Proof. vm_compute. reflexivity. Qed.
Example py_str_tuple : py_str (PTuple [PBool true]) = "(True,)".
Proof. vm_compute. reflexivity. Qed.
Example fromhex_ex : fromhex "00ff 1a" = Some [0; 255; 26] /\ fromhex "abc" = None.
Proof. vm_compute. auto. Qed.

Example parse_abi_transfer :
  FunctionInfo.name <$> (parse_abi [transfer_item] !! "0xa9059cbb") = Some "transfer".
Proof. vm_compute. reflexivity. Qed.

Example checksum_eip55 :
  to_checksum_address "0x5aaeb6053f3e94c9b9a09f33669435e7ef1beaed"
  = Some "0x5aAeb6053F3E94C9b9A09f33669435E7Ef1BeAed".
Proof. vm_compute. reflexivity. Qed.

(** ** The monad *)

Lemma bind_returned {A B} (c : M A) (k : A -> M B) st b st' :
  bind c k st = (Returned b, st') ->
  exists a st1, c st = (Returned a, st1) /\ k a st1 = (Returned b, st').
Proof.
  unfold bind. destruct (c st) as [[a|e] st1]; [eauto | discriminate].
Qed.

Lemma bind_step {A B} (c : M A) (k : A -> M B) st a st1 :
  c st = (Returned a, st1) -> bind c k st = k a st1.
Proof. unfold bind. intros ->. reflexivity. Qed.

Lemma returns_ret {A} (a : A) : returns (ret a).
Proof. intros st. unfold ret. eauto. Qed.

Lemma returns_bind {A B} (c : M A) (k : A -> M B) :
  returns c -> (forall a, returns (k a)) -> returns (bind c k).
Proof.
  intros Hc Hk st. destruct (Hc st) as (a & st1 & E).
  rewrite (bind_step _ _ _ _ _ E). apply Hk.
Qed.

Lemma returns_try_except {A} (body : M A) (handler : exn -> M A) :
  (forall e, returns (handler e)) -> returns (try_except body handler).
Proof.
  intros Hh st. unfold try_except.
  destruct (body st) as [[a|e] st1]; [eauto | apply Hh].
Qed.

Section Frames.

Context (R : relation state) `{!PreOrder R}.

Lemma frames_ret {A} (a : A) : frames R (ret a).
Proof. intros st. reflexivity. Qed.

Lemma frames_raise {A} (e : exn) : frames R (@raise A e).
Proof. intros st. reflexivity. Qed.

Lemma frames_of_option {A} e (o : option A) : frames R (of_option e o).
Proof. destruct o; [apply frames_ret | apply frames_raise]. Qed.

Lemma frames_bind {A B} (c : M A) (k : A -> M B) :
  frames R c -> (forall a, frames R (k a)) -> frames R (bind c k).
Proof.
  intros Hc Hk st. specialize (Hc st). unfold bind.
  destruct (c st) as [[a|e] st1]; simpl in *; [|assumption].
  etransitivity; [eassumption | apply Hk].
Qed.

Lemma frames_try_except {A} (body : M A) (handler : exn -> M A) :
  frames R body -> (forall e, frames R (handler e)) -> frames R (try_except body handler).
Proof.
  intros Hb Hh st. specialize (Hb st). unfold try_except.
  destruct (body st) as [[a|e] st1]; simpl in *; [assumption|].
  etransitivity; [eassumption | apply Hh].
Qed.

End Frames.

(** ** Metadata cache *)

#[local] Instance steady_preorder address : PreOrder (steady address).
Proof.
  split.
  - intros st entry H. auto.
  - intros s1 s2 s3 H12 H23 entry H.
    destruct (H12 _ H) as [H2 E2]. destruct (H23 _ H2) as [H3 E3].
    split; [assumption | congruence].
Qed.

(** Case analysis on what the world answers inside [get_contract_info]. *)
Ltac case_world :=
  match goal with
  | |- context [_make_etherscan_request ?w ?l ?c ?a] =>
      destruct (_make_etherscan_request w l c a) as [[|? ?]|]
  | |- context [save_source_code ?w ?n ?s] => destruct (save_source_code w n s)
  | |- context [json_loads ?w ?s] => destruct (json_loads w s)
  | |- context [nonempty ?s] => destruct (nonempty s)
  | |- context [String.eqb ?a ?b] => destruct (String.eqb a b)
  end; simpl.

Section Cache.

Variable world : World.

Lemma get_contract_info_hit address chain st entry :
  contract_cache st !! lower address = Some entry ->
  get_contract_info world address chain st = (Returned entry, st).
Proof. intros H. unfold get_contract_info. rewrite H. reflexivity. Qed.

Lemma get_contract_info_malformed address chain st :
  contract_cache st !! lower address = None ->
  well_formed (lower address) = false ->
  get_contract_info world address chain st = (Returned None, st).
Proof.
  intros H Hw. unfold get_contract_info. rewrite H.
  unfold well_formed in Hw.
  destruct (startswith (lower address) "0x"); simpl in *; [|reflexivity].
  rewrite Hw. reflexivity.
Qed.

Lemma get_contract_info_returns address chain :
  returns (get_contract_info world address chain).
Proof.
  intros st. unfold get_contract_info.
  destruct (contract_cache st !! lower address); [unfold ret; eauto|].
  destruct (_ || _); [unfold ret; eauto|].
  apply returns_try_except. intros e. apply returns_ret.
Qed.

Lemma get_contract_info_steady key address chain :
  frames (steady key) (get_contract_info world address chain).
Proof.
  intros st entry Hkey. unfold get_contract_info.
  destruct (contract_cache st !! lower address) as [cached|] eqn:Hc; [auto|].
  destruct (_ || _); [auto|].
  assert (Hne : lower address <> key) by congruence.
  assert (Hlog : forall cid,
    lookups key {| contract_cache := contract_cache st;
                   requests := requests st ++ [(cid, lower address)] |} = lookups key st).
  { intros cid. unfold lookups. simpl. rewrite filter_app, length_app. simpl.
    rewrite filter_cons_False, filter_nil by (simpl; congruence). simpl. lia. }
  assert (Hlog' : forall cid m,
    lookups key {| contract_cache := m;
                   requests := requests st ++ [(cid, lower address)] |} = lookups key st).
  { intros cid m. rewrite <- (Hlog cid). reflexivity. }
  unfold try_except, bind, etherscan_lookup, cache_store, of_option, ret, raise.
  repeat case_world; simpl; rewrite ?lookup_insert_ne by assumption; auto.
Qed.

End Cache.

(** Induction on values, with the elements of a list or tuple. *)
Lemma pyval_induction (P : pyval -> Prop) :
  (forall z, P (PInt z)) ->
  (forall b, P (PBool b)) ->
  (forall bs, P (PBytes bs)) ->
  (forall s, P (PStr s)) ->
  (forall l, Forall P l -> P (PList l)) ->
  (forall l, Forall P l -> P (PTuple l)) ->
  forall v, P v.
Proof.
  intros HInt HBool HBytes HStr HList HTuple.
  fix IH 1. intros [z|b|bs|s|l|l];
    [apply HInt | apply HBool | apply HBytes | apply HStr | |].
  - apply HList. induction l as [|x rest IHl]; constructor; [apply IH | exact IHl].
  - apply HTuple. induction l as [|x rest IHl]; constructor; [apply IH | exact IHl].
Qed.

Lemma format_value_eq world value value_type chain :
  format_value world value value_type chain =
  if String.eqb value_type "address" then
    do addr_str <-
      match value with
      | PStr s => of_option ValueError (to_checksum_address s)
      | _ => ret (py_str value)
      end ;;
    get_contract_name world addr_str chain
  else if startswith value_type "uint" || startswith value_type "int" then
    match value with
    | PInt z => ret (format_thousands z)
    | PBool b => ret (format_thousands (if b then 1 else 0))
    | _ => ret (py_str value)
    end
  else if String.eqb value_type "bool" then
    ret (lower (py_str value))
  else if startswith value_type "bytes" then
    match value with
    | PBytes bs => ret ("0x" +:+ hex bs)
    | _ => ret (py_str value)
    end
  else if endswith value_type "[]" then
    match value with
    | PList elems | PTuple elems =>
        do formatted_elements <-
          map_M (fun elem => format_value world elem (drop_last 2 value_type) chain) elems ;;
        ret ("[" +:+ join ", " formatted_elements +:+ "]")
    | _ => ret (py_str value)
    end
  else ret (py_str value).
Proof. destruct value; reflexivity. Qed.

(** ** Every method moves the state along what [get_contract_info] does *)

Section Client.

Context (R : relation state) `{!PreOrder R}.
Variable world : World.
Hypothesis Hinfo : forall address chain, frames R (get_contract_info world address chain).

Ltac frames_step :=
  first
    [ apply (frames_ret R) | apply (frames_raise R) | apply (frames_of_option R) | apply Hinfo
    | apply (frames_bind R); [|intros ?]
    | apply (frames_try_except R); [|intros ?]
    | match goal with
      | |- frames _ (if ?b then _ else _) => destruct b
      | |- frames _ (match ?x with _ => _ end) => destruct x
      end ].

Lemma frames_map_M {A B} (f : A -> M B) l :
  Forall (fun x => frames R (f x)) l -> frames R (map_M f l).
Proof.
  induction 1 as [|x rest Hx _ IH]; simpl; [apply (frames_ret R)|].
  apply (frames_bind R); [assumption|]. intros y.
  apply (frames_bind R); [exact IH|]. intros ys. apply (frames_ret R).
Qed.

Lemma frames_get_contract_name address chain :
  frames R (get_contract_name world address chain).
Proof. unfold get_contract_name. repeat frames_step. Qed.

Lemma frames_get_function_name address input_data chain :
  frames R (get_function_name world address input_data chain).
Proof. unfold get_function_name. repeat frames_step. Qed.

Lemma frames_decode_input_data address input_data chain :
  frames R (decode_input_data world address input_data chain).
Proof. unfold decode_input_data. repeat frames_step. Qed.

Lemma frames_decode_output_data address input_data output_data chain :
  frames R (decode_output_data world address input_data output_data chain).
Proof. unfold decode_output_data. repeat frames_step. Qed.

Lemma frames_format_value value : forall value_type chain,
  frames R (format_value world value value_type chain).
Proof.
  induction value using pyval_induction; intros value_type chain;
    rewrite format_value_eq;
    repeat first
      [ apply frames_get_contract_name
      | apply frames_map_M;
        match goal with H : Forall _ _ |- _ =>
          eapply Forall_impl; [exact H | intros ? Hx; apply Hx] end
      | frames_step ].
Qed.

Lemma frames_format_each params : forall chain formatted_params,
  frames R (format_each world params chain formatted_params).
Proof.
  induction params as [|[[param_name param_type] param_value] rest IH];
    intros chain formatted_params; simpl; [apply (frames_ret R)|].
  apply (frames_bind R); [apply frames_format_value | intros ?; apply IH].
Qed.

Lemma frames_format_parameters params chain :
  frames R (format_parameters world params chain).
Proof.
  unfold format_parameters. destruct params; [apply (frames_ret R)|].
  apply (frames_bind R); [apply frames_format_each | intros ?; apply (frames_ret R)].
Qed.

Lemma frames_wei_to_ether wei_value : frames R (wei_to_ether wei_value).
Proof. unfold wei_to_ether. repeat frames_step. Qed.

Lemma frames_format_trace_item trace_item level chain include_static_call :
  frames R (format_trace_item world trace_item level chain include_static_call).
Proof.
  unfold format_trace_item.
  repeat first
    [ apply frames_get_contract_name | apply frames_get_function_name
    | apply frames_decode_input_data | apply frames_decode_output_data
    | apply frames_format_parameters | apply frames_wei_to_ether
    | frames_step ].
Qed.

Lemma frames_parse_loop items : forall i chain include_static_call formatted_lines,
  frames R (parse_loop world i items chain include_static_call formatted_lines).
Proof.
  induction items as [|trace_item rest IH]; intros; simpl; [apply (frames_ret R)|].
  repeat first
    [ apply IH | apply frames_get_contract_name | apply frames_format_trace_item
    | frames_step ].
Qed.

Lemma frames_parse_trace trace_data chain include_static_call :
  frames R (parse_trace world trace_data chain include_static_call).
Proof.
  unfold parse_trace. destruct (get _ _); [apply (frames_ret R) | apply frames_parse_loop].
Qed.

End Client.

(** ** C1: the metadata cache *)

Section CacheClaims.

Variable world : World.

Lemma get_contract_info_caches address chain st result others :
  well_formed (lower address) = true ->
  contract_cache st !! lower address = None ->
  _make_etherscan_request world (requests st) (get (chain_ids !! chain) 1) (lower address)
    = Some (result :: others) ->
  nonempty (get (ContractName result) "") = false
  \/ nonempty (get (SourceCode result) "") = false
  \/ save_source_code world (get (ContractName result) "") (get (SourceCode result) "") = true ->
  exists entry st1,
    get_contract_info world address chain st = (Returned entry, st1)
    /\ contract_cache st1 !! lower address = Some entry
    /\ lookups (lower address) st1 = S (lookups (lower address) st).
Proof.
  intros Hw Hmiss Hreq Hres. unfold get_contract_info. rewrite Hmiss.
  unfold well_formed in Hw. apply andb_true_iff in Hw as [-> ->]. simpl.
  assert (Hlog : forall m,
    lookups (lower address)
      {| contract_cache := m;
         requests := requests st ++ [(get (chain_ids !! chain) 1, lower address)] |}
    = S (lookups (lower address) st)).
  { intros m. unfold lookups. simpl. rewrite filter_app, length_app. simpl.
    rewrite filter_cons_True, filter_nil by reflexivity. simpl. lia. }
  unfold try_except, bind, etherscan_lookup, cache_store, of_option, ret, raise.
  rewrite Hreq.
  destruct (nonempty (get (ContractName result) "")); simpl.
  - destruct Hres as [?|[->| ->]]; [discriminate| |];
      repeat case_world; eexists _, _; (split; [reflexivity|]);
      simpl; rewrite lookup_insert_eq; auto.
  - eexists _, _. split; [reflexivity|]. simpl. rewrite lookup_insert_eq. auto.
Qed.

Lemma get_contract_info_requests address chain st :
  well_formed (lower address) = true ->
  contract_cache st !! lower address = None ->
  lookups (lower address) (snd (get_contract_info world address chain st))
  = S (lookups (lower address) st).
Proof.
  intros Hw Hmiss. unfold get_contract_info. rewrite Hmiss.
  unfold well_formed in Hw. apply andb_true_iff in Hw as [-> ->]. simpl.
  assert (Hlog : forall m,
    lookups (lower address)
      {| contract_cache := m;
         requests := requests st ++ [(get (chain_ids !! chain) 1, lower address)] |}
    = S (lookups (lower address) st)).
  { intros m. unfold lookups. simpl. rewrite filter_app, length_app. simpl.
    rewrite filter_cons_True, filter_nil by reflexivity. simpl. lia. }
  unfold try_except, bind, etherscan_lookup, cache_store, of_option, ret, raise.
  repeat case_world; apply Hlog.
Qed.

Lemma get_contract_info_not_cached address chain st :
  well_formed (lower address) = true ->
  contract_cache st !! lower address = None ->
  _make_etherscan_request world (requests st) (get (chain_ids !! chain) 1) (lower address)
    = None
  \/ _make_etherscan_request world (requests st) (get (chain_ids !! chain) 1) (lower address)
    = Some [] ->
  contract_cache (snd (get_contract_info world address chain st)) = contract_cache st.
Proof.
  intros Hw Hmiss Hfail. unfold get_contract_info. rewrite Hmiss.
  unfold well_formed in Hw. apply andb_true_iff in Hw as [-> ->]. simpl.
  unfold try_except, bind, etherscan_lookup, ret.
  destruct Hfail as [-> | ->]; reflexivity.
Qed.

(** C1, amended.  The first [get_contract_info] for a well-formed address
    sends one request.  When the block explorer answers it with a result,
    verified (with its source saved) or unverified, the call stores an
    entry: rendering any trace afterwards sends no request for the address,
    and every later [get_contract_info] for it is answered from
    [contract_cache] with the state unchanged.  When the block explorer
    gives no answer or an empty result list, nothing is stored. *)
Theorem resolved_address_is_requested_once address chain st :
  well_formed (lower address) = true ->
  contract_cache st !! lower address = None ->
  let answer :=
    _make_etherscan_request world (requests st) (get (chain_ids !! chain) 1) (lower address) in
  let st1 := snd (get_contract_info world address chain st) in
  lookups (lower address) st1 = S (lookups (lower address) st)
  /\ (forall result others,
        answer = Some (result :: others) ->
        nonempty (get (ContractName result) "") = false
        \/ nonempty (get (SourceCode result) "") = false
        \/ save_source_code world (get (ContractName result) "")
             (get (SourceCode result) "") = true ->
        exists entry,
          contract_cache st1 !! lower address = Some entry
          /\ forall trace_data chain1 include_static_call address2 chain2,
               let st2 := snd (parse_trace world trace_data chain1 include_static_call st1) in
               lookups (lower address) st2 = lookups (lower address) st1
               /\ (lower address2 = lower address ->
                   get_contract_info world address2 chain2 st2 = (Returned entry, st2)))
  /\ (answer = None \/ answer = Some [] -> contract_cache st1 = contract_cache st).
Proof.
  intros Hw Hmiss answer st1.
  split; [apply get_contract_info_requests; assumption|].
  split; [|apply get_contract_info_not_cached; assumption].
  intros result others Hreq Hres.
  destruct (get_contract_info_caches _ _ _ _ _ Hw Hmiss Hreq Hres)
    as (entry & st1' & E & Hentry & Hlog).
  subst st1. rewrite E. simpl.
  exists entry. split; [assumption|].
  intros trace_data chain1 include_static_call address2 chain2.
  pose proof (frames_parse_trace (steady (lower address)) world
                (get_contract_info_steady world (lower address))
                trace_data chain1 include_static_call st1' entry Hentry) as [Hkeep Hsame].
  simpl. split; [assumption|].
  intros Heq. apply get_contract_info_hit. rewrite Heq. assumption.
Qed.

End CacheClaims.

Lemma resolved_address_is_requested_once_witness :
  let st1 := snd (get_contract_info sample_world sample_address "ETH" init_state) in
  lookups (lower sample_address) st1 = 1%nat
  /\ exists entry,
       contract_cache st1 !! lower sample_address = Some entry
       /\ lookups (lower sample_address)
            (snd (parse_trace sample_world (TraceData.mk (Some [call_item; call_item]))
                    "ETH" true st1)) = 1%nat.
Proof.
  destruct (resolved_address_is_requested_once sample_world sample_address "ETH" init_state)
    as (Hone & Hresolved & _).
  - vm_compute. reflexivity.
  - vm_compute. reflexivity.
  - destruct (Hresolved
                {| ContractName := Some "TetherToken";
                   SourceCode := Some "contract TetherToken {}";
                   ABI := Some "[transfer]" |} [])
      as (entry & Hentry & Hlater).
    + vm_compute. reflexivity.
    + right. right. vm_compute. reflexivity.
    + split; [exact Hone|]. exists entry. split; [exact Hentry|].
      destruct (Hlater (TraceData.mk (Some [call_item; call_item])) "ETH" true
                  sample_address "ETH") as [Hsame _].
      rewrite Hsame. exact Hone.
Defined.

(** C1 as stated fails: a lookup that fails is not cached, and the next
    call for the same address sends a second request. *)
Lemma failed_lookup_is_requested_again :
  let st1 := snd (get_contract_info silent_world other_address "ETH" init_state) in
  let st2 := snd (get_contract_info silent_world other_address "ETH" st1) in
  contract_cache st1 !! other_address = None
  /\ requests st2 = [(1, other_address); (1, other_address)]
  /\ ~ (lookups other_address st2 <= 1)%nat.
Proof.
  vm_compute. split; [reflexivity|]. split; [reflexivity|]. lia.
Qed.

(** ** C2: the signature resolver *)

Lemma parse_abi_snoc abi item :
  parse_abi (abi ++ [item]) = parse_abi_step (parse_abi abi) item.
Proof. unfold parse_abi. rewrite fold_left_app. reflexivity. Qed.

(** C2.  The selector stored for a function entry is ["0x"] followed by the
    first 8 hex characters of the Keccak-256 hash of [name(type1,type2,...)],
    built from the input type strings alone; it is a function of the entry,
    so repeated calls agree.  Looking a selector up after one more entry has
    been parsed gives that entry when it is a function with this selector
    (the last one wins) and what was there before otherwise (an entry that
    is not a function changes nothing).  [transfer(address,uint256)] gets
    [0xa9059cbb]. *)
Theorem parse_abi_selectors abi item selector :
  let input_types := map (fun inp => get (param_type inp) "") (get (abi_inputs item) []) in
  let canonical := get (abi_name item) "" +:+ "(" +:+ join "," input_types +:+ ")" in
  let computed := "0x" +:+ take_str 8 (hex (Keccak.keccak256 (encode canonical))) in
  FunctionInfo.signature (function_info item) = computed
  /\ parse_abi (abi ++ [item]) !! selector =
       (if is_function item && String.eqb selector computed
        then Some (function_info item)
        else parse_abi abi !! selector)
  /\ signature_string "transfer" ["address"; "uint256"] = "transfer(address,uint256)"
  /\ signature_of "transfer(address,uint256)" = "0xa9059cbb"
  /\ parse_abi [transfer_item] !! "0xa9059cbb" = Some (function_info transfer_item).
Proof.
  intros input_types canonical computed.
  split; [reflexivity|]. split.
  - rewrite parse_abi_snoc. unfold parse_abi_step.
    destruct (is_function item); simpl; [|reflexivity].
    change (FunctionInfo.signature (function_info item)) with computed.
    destruct (String.eqb_spec selector computed) as [->|Hne].
    + apply lookup_insert_eq.
    + apply lookup_insert_ne. intros Heq. apply Hne. symmetry. exact Heq.
  - split; [reflexivity|]. split; vm_compute; reflexivity.
Qed.

(** ** C5: empty call data *)

(** C5.  For input data that is absent (the empty string) or exactly [0x],
    [get_function_signature] and [get_function_name] give [<empty>] and
    [decode_input_data] gives no parameters; none of them raises, consults
    the cache or sends a request. *)
Theorem empty_input_data world address chain st :
  (get_function_signature "" = "<empty>"
   /\ get_function_name world address "" chain st = (Returned "<empty>", st)
   /\ decode_input_data world address "" chain st = (Returned [], st))
  /\ (get_function_signature "0x" = "<empty>"
      /\ get_function_name world address "0x" chain st = (Returned "<empty>", st)
      /\ decode_input_data world address "0x" chain st = (Returned [], st)).
Proof. repeat split. Qed.

(** ** C7: arrays of integers *)

(** C7 fails on the code for element types that begin with [uint], [int]
    or [bytes]: the test for these prefixes comes before the test for the
    [[]] suffix, so the array is printed by [str] and its elements are not
    formatted.  Here the elements format as [1,000] and [2,000], and the
    array as [[1000, 2000]] (as [(1000, 2000)] for the tuple the decoder
    returns); an array of [bool] does reach the array branch. *)
Lemma format_value_uint_array world chain st :
  format_value world (PInt 1000) "uint256" chain st = (Returned "1,000", st)
  /\ format_value world (PInt 2000) "uint256" chain st = (Returned "2,000", st)
  /\ format_value world (PList [PInt 1000; PInt 2000]) "uint256[]" chain st
     = (Returned "[1000, 2000]", st)
  /\ format_value world (PTuple [PInt 1000; PInt 2000]) "uint256[]" chain st
     = (Returned "(1000, 2000)", st)
  /\ "[" +:+ "1,000" +:+ ", " +:+ "2,000" +:+ "]" <> "[1000, 2000]"
  /\ format_value world (PList [PBool true; PBool false]) "bool[]" chain st
     = (Returned "[true, false]", st).
Proof. repeat split. discriminate. Qed.

(** ** C6: decoding never raises *)

Lemma wei_to_ether_eq wei_value :
  wei_to_ether wei_value =
  (do wei_int <- of_option ValueError (parse_wei wei_value) ;;
   of_option OverflowError (PyFloat.true_divide wei_int (10 ^ 18))).
Proof. unfold wei_to_ether, parse_wei. destruct (startswith _ _); reflexivity. Qed.

Ltac returns_step :=
  first
    [ apply returns_ret | apply get_contract_info_returns
    | apply returns_bind; [|intros ?]
    | apply returns_try_except; intros ?
    | match goal with
      | |- returns (if ?b then _ else _) => destruct b
      | |- returns (match ?x with _ => _ end) => destruct x
      end ].

Section Decoding.

Variable world : World.

Lemma get_contract_name_returns address chain :
  returns (get_contract_name world address chain).
Proof. unfold get_contract_name. repeat returns_step. Qed.

Lemma get_function_name_returns address input_data chain :
  returns (get_function_name world address input_data chain).
Proof. unfold get_function_name. repeat returns_step. Qed.

Lemma decode_input_data_returns address input_data chain :
  returns (decode_input_data world address input_data chain).
Proof. unfold decode_input_data. repeat returns_step. Qed.

Lemma decode_output_data_returns address input_data output_data chain :
  returns (decode_output_data world address input_data output_data chain).
Proof. unfold decode_output_data. repeat returns_step. Qed.

(** What [decode_input_data] returns: nothing, unless the contract is
    resolved, the selector is known, the hex is well formed and the ABI
    decoder succeeds. *)
Lemma decode_input_data_spec address input_data chain st :
  exists params st',
    decode_input_data world address input_data chain st = (Returned params, st')
    /\ (params = []
        \/ exists info function_info raw decoded,
             get_contract_info world address chain st = (Returned (Some info), st')
             /\ ContractInfo.functions info !! get_function_signature input_data
                = Some function_info
             /\ fromhex (drop_str 10 input_data) = Some raw
             /\ decode world (FunctionInfo.input_types function_info) raw = Some decoded
             /\ params = name_params "param" 0 (FunctionInfo.input_types function_info)
                           (FunctionInfo.input_names function_info) decoded).
Proof.
  unfold decode_input_data.
  destruct (_ || _); [unfold ret; eauto|].
  destruct (get_contract_info_returns world address chain st) as ([info|] & st1 & E);
    rewrite (bind_step _ _ _ _ _ E); [|unfold ret; eauto].
  destruct (ContractInfo.functions info !! _) as [function_info|] eqn:Hf;
    [|unfold ret; eauto].
  unfold try_except, bind, of_option, ret, raise.
  destruct (_ || _); [eauto|].
  destruct (fromhex _) as [raw|] eqn:Hraw; [|eauto].
  destruct (decode world _ raw) as [decoded|] eqn:Hdec; [|eauto].
  eexists _, _. split; [reflexivity|]. right. eauto 10.
Qed.

Lemma decode_output_data_spec address input_data output_data chain st :
  exists params st',
    decode_output_data world address input_data output_data chain st = (Returned params, st')
    /\ (params = []
        \/ exists info function_info raw decoded,
             get_contract_info world address chain st = (Returned (Some info), st')
             /\ ContractInfo.functions info !! get_function_signature input_data
                = Some function_info
             /\ fromhex (drop_str 2 output_data) = Some raw
             /\ decode world (FunctionInfo.output_types function_info) raw = Some decoded
             /\ params = name_params "output" 0 (FunctionInfo.output_types function_info)
                           (FunctionInfo.output_names function_info) decoded).
Proof.
  unfold decode_output_data.
  destruct (_ || _); [unfold ret; eauto|].
  destruct (get_contract_info_returns world address chain st) as ([info|] & st1 & E);
    rewrite (bind_step _ _ _ _ _ E); [|unfold ret; eauto].
  destruct (ContractInfo.functions info !! _) as [function_info|] eqn:Hf;
    [|unfold ret; eauto].
  unfold try_except, bind, of_option, ret, raise.
  destruct (bool_decide _); [eauto|].
  destruct (fromhex _) as [raw|] eqn:Hraw; [|eauto].
  destruct (decode world _ raw) as [decoded|] eqn:Hdec; [|eauto].
  eexists _, _. split; [reflexivity|]. right. eauto 10.
Qed.

End Decoding.

(** *** Selectors have ten characters *)

Lemma length_keccak_round st rc : length (Keccak.keccak_round st rc) = 25%nat.
Proof.
  assert (H : forall g : nat -> Z, length (Keccak.iota rc (map g (seq 0 25))) = 25%nat).
  { intros g. change (seq 0 25) with (0%nat :: seq 1 24).
    cbn [map Keccak.iota length]. rewrite length_map, length_seq. reflexivity. }
  apply H.
Qed.

Lemma length_keccak_rounds rcs : forall st,
  length st = 25%nat \/ rcs <> [] ->
  length (fold_left Keccak.keccak_round rcs st) = 25%nat.
Proof.
  induction rcs as [|rc rest IH]; intros st H; simpl.
  - destruct H; [assumption | congruence].
  - apply IH. left. apply length_keccak_round.
Qed.

Lemma length_absorbed blocks : forall st,
  length st = 25%nat -> length (fold_left Keccak.absorb blocks st) = 25%nat.
Proof.
  induction blocks as [|b rest IH]; intros st H; simpl; [assumption|].
  apply IH. unfold Keccak.absorb, Keccak.keccak_f.
  apply length_keccak_rounds. right. discriminate.
Qed.

Lemma length_keccak256 msg : length (Keccak.keccak256 msg) = 32%nat.
Proof.
  unfold Keccak.keccak256.
  pose proof (length_absorbed
    (Keccak.chunks (length (Keccak.pad msg)) Keccak.rate (Keccak.pad msg))
    (repeat 0 25%nat) (repeat_length _ _)) as H.
  destruct (fold_left _ _ _) as [|a [|b [|c [|d rest]]]]; try discriminate.
  reflexivity.
Qed.

Lemma length_hex bs : String.length (hex bs) = (2 * length bs)%nat.
Proof. induction bs as [|b rest IH]; simpl; [reflexivity | rewrite IH; lia]. Qed.

Lemma length_take_str n s :
  (n <= String.length s)%nat -> String.length (take_str n s) = n.
Proof.
  revert s. induction n as [|n IH]; intros [|c s] H; simpl in *; try lia.
  rewrite IH; lia.
Qed.

Lemma length_append s1 s2 :
  String.length (s1 +:+ s2) = (String.length s1 + String.length s2)%nat.
Proof. induction s1 as [|c s1 IH]; simpl; [reflexivity | rewrite IH; reflexivity]. Qed.

Lemma length_signature_of signature_string :
  String.length (signature_of signature_string) = 10%nat.
Proof.
  unfold signature_of. rewrite length_append, length_take_str; [reflexivity|].
  rewrite length_hex, length_keccak256. lia.
Qed.

Lemma parse_abi_keys abi selector function_info :
  parse_abi abi !! selector = Some function_info -> String.length selector = 10%nat.
Proof.
  unfold parse_abi.
  assert (H : forall (m : gmap string FunctionInfo.t),
    (forall s f, m !! s = Some f -> String.length s = 10%nat) ->
    forall s f, fold_left parse_abi_step abi m !! s = Some f -> String.length s = 10%nat).
  { induction abi as [|item rest IH]; intros m Hm; simpl; [exact Hm|].
    apply IH. intros s f. unfold parse_abi_step.
    destruct (is_function item); [|apply Hm].
    rewrite lookup_insert. case_decide as Heq; [|apply Hm].
    intros _. rewrite <- Heq. apply length_signature_of. }
  apply H. intros s f. rewrite lookup_empty. discriminate.
Qed.

Lemma short_selector_unknown abi input_data :
  (String.length input_data < 10)%nat ->
  parse_abi abi !! get_function_signature input_data = None.
Proof.
  intros Hlen.
  destruct (parse_abi abi !! get_function_signature input_data) as [f|] eqn:E;
    [|reflexivity].
  apply parse_abi_keys in E. unfold get_function_signature in E.
  destruct (_ || _); [discriminate|].
  destruct (Nat.leb_spec 10 (String.length input_data)); lia.
Qed.

(** ** C8: the formatter is total on well-typed values *)

Lemma lower_char_hex c :
  is_Some (hex_value c) -> is_Some (hex_value (lower_char c)).
Proof.
  destruct c as [[] [] [] [] [] [] [] []]; vm_compute; intros [x H];
    try discriminate; eauto.
Qed.

Lemma is_hex_string_lower s : is_hex_string s = true -> is_hex_string (lower s) = true.
Proof.
  unfold is_hex_string, lower. induction s as [|c s IH]; simpl; [reflexivity|].
  intros H. apply andb_true_iff in H as [Hc Hs].
  apply andb_true_iff. split; [|apply IH; assumption].
  apply bool_decide_eq_true. apply lower_char_hex.
  apply bool_decide_eq_true in Hc. assumption.
Qed.

Lemma length_lower s : String.length (lower s) = String.length s.
Proof.
  unfold lower. induction s as [|c s IH]; simpl; [reflexivity | rewrite IH; reflexivity].
Qed.

Lemma startswith_cons c s d p :
  startswith (String c s) (String d p) = true -> d = c /\ startswith s p = true.
Proof.
  unfold startswith. cbn [String.prefix].
  destruct (Ascii.ascii_dec d c); [auto | discriminate].
Qed.

Lemma startswith_0x s :
  startswith s "0x" = true -> exists body, s = String "0" (String "x" body).
Proof.
  destruct s as [|c1 [|c2 body]]; try discriminate.
  - intros H. apply startswith_cons in H as [_ H]. discriminate.
  - intros H. apply startswith_cons in H as [<- H].
    apply startswith_cons in H as [<- _]. eauto.
Qed.

Lemma startswith_0x_intro body :
  startswith (String "0" (String "x" body)) "0x" = true.
Proof.
  unfold startswith. cbn [String.prefix].
  destruct (Ascii.ascii_dec "0" "0"); [|congruence].
  destruct (Ascii.ascii_dec "x" "x"); [|congruence].
  destruct body; reflexivity.
Qed.

Lemma valid_address_checksums s :
  valid_address s = true -> exists checksum, to_checksum_address s = Some checksum.
Proof.
  unfold valid_address. intros H.
  apply andb_true_iff in H as [H Hhex]. apply andb_true_iff in H as [Hpre Hlen].
  apply startswith_0x in Hpre as [body ->].
  unfold to_checksum_address.
  change (lower (String "0" (String "x" body))) with (String "0" (String "x" (lower body))).
  rewrite startswith_0x_intro.
  change (drop_str 2 (String "0" (String "x" (lower body)))) with (lower body).
  simpl in Hlen, Hhex. rewrite length_lower, Hlen.
  rewrite (is_hex_string_lower _ Hhex). simpl. eauto.
Qed.

Lemma returns_map_M {A B} (f : A -> M B) l :
  Forall (fun x => returns (f x)) l -> returns (map_M f l).
Proof.
  induction 1 as [|x rest Hx _ IH]; simpl; [apply returns_ret|].
  apply returns_bind; [assumption|]. intros y.
  apply returns_bind; [exact IH|]. intros ys. apply returns_ret.
Qed.

Lemma well_typed_elements world chain t l :
  Forall (fun v => forall t chain,
            well_typed v t = true -> returns (format_value world v t chain)) l ->
  forallb (fun elem => well_typed elem t) l = true ->
  Forall (fun elem => returns (format_value world elem t chain)) l.
Proof.
  induction 1 as [|v rest Hv _ IH]; simpl; intros Hall; constructor.
  - apply Hv. apply andb_true_iff in Hall as [H _]. exact H.
  - apply IH. apply andb_true_iff in Hall as [_ H]. exact H.
Qed.

Lemma well_typed_array l t :
  endswith t "[]" = true ->
  well_typed (PList l) t = true ->
  forallb (fun elem => well_typed elem (drop_last 2 t)) l = true.
Proof.
  intros Hsuffix H.
  change (match array_element t with
          | Some element_type => forallb (fun elem => well_typed elem element_type) l
          | None =>
              match tuple_components t with
              | Some types => forallb2 well_typed l types
              | None => false
              end
          end = true) in H.
  unfold array_element in H. rewrite Hsuffix in H. exact H.
Qed.

Lemma format_value_returns world value : forall value_type chain,
  well_typed value value_type = true ->
  returns (format_value world value value_type chain).
Proof.
  induction value as [z|b|bs|s|l IH|l IH] using pyval_induction;
    intros value_type chain Hwt; rewrite format_value_eq.
  1-3: repeat first [apply get_contract_name_returns | returns_step].
  - (* a string: only a valid address reaches [to_checksum_address] *)
    destruct (String.eqb_spec value_type "address") as [->|_].
    + simpl in Hwt. rewrite orb_false_r in Hwt.
      destruct (valid_address_checksums s Hwt) as [checksum ->].
      apply returns_bind; [apply returns_ret | intros ?; apply get_contract_name_returns].
    + repeat returns_step.
  - (* a list: the elements are formatted only under a tag [T[]] *)
    destruct (endswith value_type "[]") eqn:Hsuffix.
    + apply (well_typed_array _ _ Hsuffix) in Hwt as Hall.
      repeat first
        [ apply get_contract_name_returns
        | apply returns_map_M; eapply well_typed_elements; eassumption
        | returns_step ].
    + repeat first [apply get_contract_name_returns | returns_step].
  - change (well_typed (PTuple l) value_type) with (well_typed (PList l) value_type) in Hwt.
    destruct (endswith value_type "[]") eqn:Hsuffix.
    + apply (well_typed_array _ _ Hsuffix) in Hwt as Hall.
      repeat first
        [ apply get_contract_name_returns
        | apply returns_map_M; eapply well_typed_elements; eassumption
        | returns_step ].
    + repeat first [apply get_contract_name_returns | returns_step].
Qed.

(** The tuples the decoder returns for fixed-size and nested arrays are
    well typed; under a fixed-size tag, and under any tag that begins with
    [uint], the sequence is printed whole. *)
Example fixed_and_nested_arrays :
  well_typed (PTuple [PInt 1000; PInt 2000]) "uint256[2]" = true
  /\ well_typed (PTuple [PStr (lower sample_address)]) "address[1]" = true
  /\ well_typed (PTuple [PTuple [PInt 1; PInt 2]; PTuple [PInt 3; PInt 4]]) "uint256[2][]"
     = true
  /\ well_typed (PTuple [PTuple [PBool true; PBool false]]) "bool[2][]" = true
  /\ well_typed (PTuple [PInt 7; PStr (lower sample_address)]) "(uint256,address)" = true
  /\ fst (format_value sample_world (PTuple [PInt 1000; PInt 2000]) "uint256[2]" "ETH"
            init_state)
     = Returned "(1000, 2000)"
  /\ fst (format_value sample_world (PTuple [PTuple [PBool true; PBool false]]) "bool[2][]"
            "ETH" init_state)
     = Returned "[(True, False)]".
Proof. vm_compute. repeat split; reflexivity. Qed.

(** C8.  For a value of the shape the ABI decoder produces for its type
    tag (an integer for [uintN]/[intN], a boolean for [bool], bytes for
    [bytes]/[bytesN]/[function], a [0x] address of 40 hex digits for
    [address], a string for [string], a list or tuple of values of the
    element type for an array type [T[]] or [T[k]], nested or not, one value
    per component for a tuple type), [format_value] returns a string in
    every state and never raises. *)
Theorem format_value_total world value value_type chain st :
  well_typed value value_type = true ->
  exists text st', format_value world value value_type chain st = (Returned text, st').
Proof. intros Hwt. apply format_value_returns. exact Hwt. Qed.

Lemma format_value_total_witness :
  exists text st',
    format_value sample_world
      (PTuple [PStr "0x5aaeb6053f3e94c9b9a09f33669435e7ef1beaed"; PStr (lower sample_address)])
      "address[]" "ETH" init_state = (Returned text, st').
Proof. apply format_value_total. vm_compute. reflexivity. Defined.

(** ** Rendering completes *)

Section Completion.

Variable world : World.
Hypothesis decode_typed : decoder_well_typed world.

Lemma name_params_typed prefix types : forall i names decoded,
  Forall2 (fun value param_type => well_typed value param_type = true) decoded types ->
  Forall (fun param => well_typed (snd param) (snd (fst param)) = true)
    (name_params prefix i types names decoded).
Proof.
  induction types as [|param_type types IH]; intros i names decoded H;
    [constructor|].
  destruct names as [|param_name names]; [constructor|].
  inversion H as [|value param_type' decoded' types' Hv Hrest]; subst.
  simpl. constructor; [exact Hv | apply IH; exact Hrest].
Qed.

Lemma decode_input_data_typed address input_data chain st :
  exists params st',
    decode_input_data world address input_data chain st = (Returned params, st')
    /\ Forall (fun param => well_typed (snd param) (snd (fst param)) = true) params.
Proof.
  destruct (decode_input_data_spec world address input_data chain st)
    as (params & st' & E & [->|(info & f & raw & decoded & _ & _ & _ & Hdec & ->)]);
    eexists; exists st'; (split; [exact E|]); [constructor|].
  apply name_params_typed. apply (decode_typed _ _ _ Hdec).
Qed.

Lemma decode_output_data_typed address input_data output_data chain st :
  exists params st',
    decode_output_data world address input_data output_data chain st
    = (Returned params, st')
    /\ Forall (fun param => well_typed (snd param) (snd (fst param)) = true) params.
Proof.
  destruct (decode_output_data_spec world address input_data output_data chain st)
    as (params & st' & E & [->|(info & f & raw & decoded & _ & _ & _ & Hdec & ->)]);
    eexists; exists st'; (split; [exact E|]); [constructor|].
  apply name_params_typed. apply (decode_typed _ _ _ Hdec).
Qed.

Lemma format_each_returns params : forall chain formatted_params,
  Forall (fun param => well_typed (snd param) (snd (fst param)) = true) params ->
  returns (format_each world params chain formatted_params).
Proof.
  induction params as [|[[param_name param_type] param_value] rest IH];
    intros chain acc H; simpl; [apply returns_ret|].
  inversion H as [|? ? Hv Hrest]; subst. simpl in Hv.
  apply returns_bind; [apply format_value_returns; exact Hv|].
  intros formatted_value. apply IH. exact Hrest.
Qed.

Lemma format_parameters_returns params chain :
  Forall (fun param => well_typed (snd param) (snd (fst param)) = true) params ->
  returns (format_parameters world params chain).
Proof.
  intros H. unfold format_parameters. destruct params; [apply returns_ret|].
  apply returns_bind; [apply format_each_returns; exact H | intros ?; apply returns_ret].
Qed.

Lemma format_trace_item_completes trace_item level chain include_static_call st :
  value_ok trace_item = true ->
  exists line st',
    format_trace_item world trace_item level chain include_static_call st
    = (Returned line, st').
Proof.
  intros Hv. unfold format_trace_item.
  destruct (_ && _); [unfold ret; eauto|].
  unfold value_ok in Hv.
  set (value := get (Action.value (get (TraceItem.action trace_item) Action.empty)) "0x0") in *.
  assert (Hvalue : exists value_str,
    (if negb (String.eqb value "0x0") && negb (String.eqb value "0")
     then do ether_value <- wei_to_ether value ;;
          ret (if PyFloat.positive ether_value
               then "[value: " +:+ PyFloat.repr ether_value +:+ " Ether] " else "")
     else ret "") st = (Returned value_str, st)).
  { destruct (String.eqb value "0x0"); simpl in *; [unfold ret; eauto|].
    destruct (String.eqb value "0"); simpl in *; [unfold ret; eauto|].
    rewrite wei_to_ether_eq. unfold bind, of_option, ret, raise.
    destruct (parse_wei value) as [wei_int|]; [|discriminate].
    apply bool_decide_eq_true in Hv as [f ->]. eauto. }
  destruct Hvalue as (value_str & Evalue).
  rewrite (bind_step _ _ _ _ _ Evalue).
  match goal with |- context [get_contract_name world ?a chain] =>
    destruct (get_contract_name_returns world a chain st) as (name & st1 & E1) end.
  rewrite (bind_step _ _ _ _ _ E1).
  match goal with |- context [get_function_name world ?a ?i chain] =>
    destruct (get_function_name_returns world a i chain st1) as (fname & st2 & E2) end.
  rewrite (bind_step _ _ _ _ _ E2).
  match goal with |- context [decode_input_data world ?a ?i chain] =>
    destruct (decode_input_data_typed a i chain st2) as (inputs & st3 & E3 & Hin) end.
  rewrite (bind_step _ _ _ _ _ E3).
  match goal with |- context [decode_output_data world ?a ?i ?o chain] =>
    destruct (decode_output_data_typed a i o chain st3) as (outputs & st4 & E4 & Hout) end.
  rewrite (bind_step _ _ _ _ _ E4).
  destruct (format_parameters_returns inputs chain Hin st4) as (input_str & st5 & E5).
  rewrite (bind_step _ _ _ _ _ E5).
  destruct (format_parameters_returns outputs chain Hout st5) as (output_str & st6 & E6).
  rewrite (bind_step _ _ _ _ _ E6).
  unfold ret. eauto.
Qed.

Lemma parse_loop_completes items : forall i chain include_static_call formatted_lines st,
  forallb value_ok items = true ->
  exists lines st',
    parse_loop world i items chain include_static_call formatted_lines st
    = (Returned lines, st').
Proof.
  induction items as [|trace_item rest IH]; intros i chain inc acc st Hv; simpl.
  - unfold ret. eauto.
  - simpl in Hv. apply andb_true_iff in Hv as [Hv Hrest].
    match goal with |- exists _ _, bind ?c _ _ = _ =>
      assert (Hsender : exists acc1 st1, c st = (Returned acc1, st1)) end.
    { destruct (i =? 0)%nat; [|unfold ret; eauto].
      destruct (nonempty _); [|unfold ret; eauto].
      match goal with |- context [get_contract_name world ?a chain] =>
        destruct (get_contract_name_returns world a chain st) as (name & st1 & E1) end.
      rewrite (bind_step _ _ _ _ _ E1). unfold ret. eauto. }
    destruct Hsender as (acc1 & st1 & E1). rewrite (bind_step _ _ _ _ _ E1).
    destruct (format_trace_item_completes trace_item
                (length (get (TraceItem.traceAddress trace_item) [])) chain inc st1 Hv)
      as (line & st2 & E2).
    rewrite (bind_step _ _ _ _ _ E2). apply IH. assumption.
Qed.

Lemma parse_trace_completes items chain include_static_call st :
  forallb value_ok items = true ->
  exists lines st',
    parse_trace world (TraceData.mk (Some items)) chain include_static_call st
    = (Returned lines, st').
Proof.
  intros Hv.
  destruct items as [|trace_item rest]; [unfold parse_trace, ret; simpl; eauto|].
  exact (parse_loop_completes (trace_item :: rest) 0 chain include_static_call [] st Hv).
Qed.

End Completion.

(** C6.  [decode_input_data] and [decode_output_data] never raise: in every
    state they return, and what they return is empty unless the contract is
    resolved, the selector is one of its functions, the hex data is well
    formed and [eth_abi.decode] succeeds.  A selector shorter than ten
    characters is in no table [parse_abi] builds.  When every ABI decode
    raises, rendering a trace whose [value] fields are well formed still
    returns its lines. *)
Theorem decoding_never_raises world address input_data output_data chain st :
  (exists params st',
     decode_input_data world address input_data chain st = (Returned params, st')
     /\ (params = []
         \/ exists info function_info raw decoded,
              get_contract_info world address chain st = (Returned (Some info), st')
              /\ ContractInfo.functions info !! get_function_signature input_data
                 = Some function_info
              /\ fromhex (drop_str 10 input_data) = Some raw
              /\ decode world (FunctionInfo.input_types function_info) raw = Some decoded
              /\ params = name_params "param" 0 (FunctionInfo.input_types function_info)
                            (FunctionInfo.input_names function_info) decoded))
  /\ (exists params st',
        decode_output_data world address input_data output_data chain st
        = (Returned params, st')
        /\ (params = []
            \/ exists info function_info raw decoded,
                 get_contract_info world address chain st = (Returned (Some info), st')
                 /\ ContractInfo.functions info !! get_function_signature input_data
                    = Some function_info
                 /\ fromhex (drop_str 2 output_data) = Some raw
                 /\ decode world (FunctionInfo.output_types function_info) raw = Some decoded
                 /\ params = name_params "output" 0 (FunctionInfo.output_types function_info)
                               (FunctionInfo.output_names function_info) decoded))
  /\ (forall abi, (String.length input_data < 10)%nat ->
        parse_abi abi !! get_function_signature input_data = None)
  /\ ((forall types raw, decode world types raw = None) ->
      forall items include_static_call,
        forallb value_ok items = true ->
        exists lines st',
          parse_trace world (TraceData.mk (Some items)) chain include_static_call st
          = (Returned lines, st')).
Proof.
  split; [apply decode_input_data_spec|].
  split; [apply decode_output_data_spec|].
  split; [intros abi; apply short_selector_unknown|].
  intros Hdec items inc Hv. apply parse_trace_completes; [|assumption].
  intros types raw decoded H. rewrite Hdec in H. discriminate.
Qed.

Lemma decoding_never_raises_witness :
  exists lines st',
    parse_trace silent_world (TraceData.mk (Some [call_item; static_item])) "ETH" true
      init_state = (Returned lines, st').
Proof.
  apply (decoding_never_raises silent_world "" "" "" "ETH" init_state).
  - intros types raw. reflexivity.
  - vm_compute. reflexivity.
Defined.

(** ** The float of a positive amount is positive *)

Lemma round_half_even_pos n d : 0 < d <= n -> 0 < PyFloat.round_half_even n d.
Proof.
  intros [Hd Hn]. unfold PyFloat.round_half_even.
  assert (0 < n / d) by (apply Z.div_str_pos; lia).
  repeat match goal with |- context [if ?b then _ else _] => destruct b end; lia.
Qed.

Lemma scale_dominates p q e :
  0 < q < 2 ^ 60 -> 0 < p -> e <= Z.log2 p - 111 ->
  0 < snd (PyFloat.scale p q e) <= fst (PyFloat.scale p q e).
Proof.
  intros [Hq0 Hq] Hp He.
  pose proof (Z.log2_nonneg p) as Hl.
  destruct (Z.log2_spec p Hp) as [Hlo _].
  unfold PyFloat.scale. destruct (Z.ltb_spec e 0) as [Hneg|Hpos]; simpl.
  - split; [lia|].
    assert (2 ^ 111 <= 2 ^ Z.log2 p * 2 ^ (- e)).
    { rewrite <- Z.pow_add_r by lia. apply Z.pow_le_mono_r; lia. }
    assert (2 ^ 60 <= 2 ^ 111) by (apply Z.pow_le_mono_r; lia).
    assert (0 < 2 ^ (- e)) by (apply Z.pow_pos_nonneg; lia).
    nia.
  - assert (0 < 2 ^ e) by (apply Z.pow_pos_nonneg; lia).
    split; [nia|].
    assert (2 ^ 60 * 2 ^ e <= 2 ^ Z.log2 p).
    { rewrite <- Z.pow_add_r by lia. apply Z.pow_le_mono_r; lia. }
    nia.
Qed.

Lemma round_ratio_pos p m e :
  0 < p -> PyFloat.round_ratio p (10 ^ 18) = Some (m, e) -> 0 < m.
Proof.
  intros Hp. unfold PyFloat.round_ratio.
  destruct (Z.eqb_spec p 0) as [|_]; [lia|].
  assert (Hlog : Z.log2 (10 ^ 18) = 59) by (vm_compute; reflexivity).
  assert (Hq : 0 < 10 ^ 18 < 2 ^ 60) by (vm_compute; split; reflexivity).
  rewrite Hlog.
  pose proof (Z.log2_nonneg p) as Hl.
  match goal with |- context [Z.max ?x (-1074)] => set (e1 := x) end.
  assert (He1 : -1074 <= e1 <= Z.log2 p - 111).
  { subst e1. match goal with |- context [if ?b then _ else _] => destruct b end; lia. }
  rewrite (Z.max_l e1 (-1074)) by lia.
  pose proof (scale_dominates p (10 ^ 18) e1 Hq Hp (proj2 He1)) as Hs.
  destruct (PyFloat.scale p (10 ^ 18) e1) as [n d]. simpl in Hs.
  pose proof (round_half_even_pos n d Hs) as Hm.
  destruct (Z.eqb_spec (PyFloat.round_half_even n d) (2 ^ 53)) as [_|_];
    destruct (971 <? _); intros [= <- <-]; [reflexivity | assumption].
Qed.

Lemma true_divide_positive wei_int ether_value :
  PyFloat.true_divide wei_int (10 ^ 18) = Some ether_value ->
  PyFloat.positive ether_value = (0 <? wei_int).
Proof.
  unfold PyFloat.true_divide.
  destruct (PyFloat.round_ratio (Z.abs wei_int) (10 ^ 18)) as [[m e]|] eqn:E;
    [|discriminate].
  intros [= <-]. unfold PyFloat.positive. simpl.
  destruct (Z.ltb_spec wei_int 0) as [Hneg|Hnonneg]; simpl.
  - symmetry. apply Z.ltb_ge. lia.
  - destruct (Z.eq_dec wei_int 0) as [->|Hne].
    + vm_compute in E. injection E as <- <-. reflexivity.
    + apply round_ratio_pos in E; [|lia].
      destruct (Z.ltb_spec 0 m), (Z.ltb_spec 0 wei_int); lia || reflexivity.
Qed.

(** ** The renderer, record by record *)

Lemma append_assoc s1 s2 s3 : (s1 +:+ s2) +:+ s3 = s1 +:+ (s2 +:+ s3).
Proof.
  induction s1 as [|c s1 IH]; [reflexivity|].
  change (String c ((s1 +:+ s2) +:+ s3) = String c (s1 +:+ (s2 +:+ s3))).
  rewrite IH. reflexivity.
Qed.

Section Rendering.

Variable world : World.

Lemma value_step value st r st' :
  (if negb (String.eqb value "0x0") && negb (String.eqb value "0")
   then do ether_value <- wei_to_ether value ;;
        ret (if PyFloat.positive ether_value
             then "[value: " +:+ PyFloat.repr ether_value +:+ " Ether] " else "")
   else ret "") st = (Returned r, st') ->
  st' = st /\ value_annotation value r.
Proof.
  destruct (String.eqb_spec value "0x0") as [->|_]; simpl.
  { intros [= <- <-]. split; [reflexivity|].
    exists 0, PyFloat.zero. repeat split. }
  destruct (String.eqb_spec value "0") as [->|_]; simpl.
  { intros [= <- <-]. split; [reflexivity|].
    exists 0, PyFloat.zero. repeat split. }
  rewrite wei_to_ether_eq. unfold bind, of_option, ret, raise.
  destruct (parse_wei value) as [wei_int|] eqn:Hparse; [|discriminate].
  destruct (PyFloat.true_divide wei_int (10 ^ 18)) as [ether_value|] eqn:Hdiv;
    [|discriminate].
  intros [= <- <-]. split; [reflexivity|].
  exists wei_int, ether_value. rewrite <- (true_divide_positive _ _ Hdiv). auto.
Qed.

(** A returned [format_trace_item]: nothing for a filtered record, otherwise
    the line with its level, label, value annotation and contract name. *)
Lemma format_trace_item_inv trace_item level chain include_static_call st r st' :
  format_trace_item world trace_item level chain include_static_call st = (Returned r, st') ->
  if emitted include_static_call trace_item then
    exists value_str contract_name st1 call_rest output_part,
      value_annotation (item_value trace_item) value_str
      /\ get_contract_name world (target trace_item) chain st = (Returned contract_name, st1)
      /\ r = Some (line_start level (call_label trace_item) +:+ value_str +:+
                   (contract_name +:+ "." +:+ call_rest) +:+ output_part)
  else r = None /\ st' = st.
Proof.
  unfold format_trace_item, emitted.
  change (if bool_decide (TraceItem.type trace_item = Some "create")
          then "CREATE"
          else upper (get (Action.callType
                 (get (TraceItem.action trace_item) Action.empty)) ""))
    with (call_label trace_item).
  change (if bool_decide (TraceItem.type trace_item = Some "create")
          then get (Result.address (get (TraceItem.result trace_item) Result.empty)) ""
          else get (Action.to (get (TraceItem.action trace_item) Action.empty)) "")
    with (target trace_item).
  change (get (Action.value (get (TraceItem.action trace_item) Action.empty)) "0x0")
    with (item_value trace_item).
  destruct include_static_call; simpl;
    [|destruct (String.eqb (call_label trace_item) "STATICCALL"); simpl;
      [intros [= <- <-]; auto|]].
  all: intros H;
    apply bind_returned in H as (value_str & s0 & Hvalue & H);
    apply value_step in Hvalue as [-> Hvalue];
    apply bind_returned in H as (contract_name & st1 & Hname & H);
    apply bind_returned in H as (function_name & st2 & _ & H);
    apply bind_returned in H as (input_params & st3 & _ & H);
    apply bind_returned in H as (output_params & st4 & _ & H);
    apply bind_returned in H as (input_str & st5 & _ & H);
    apply bind_returned in H as (output_str & st6 & _ & H);
    injection H as <- <-;
    exists value_str, contract_name, st1,
      (function_name +:+ "(" +:+ input_str +:+ ")"),
      (if nonempty output_str then " => (" +:+ output_str +:+ ")" else " => ()");
    (split; [assumption|]); (split; [assumption|]);
    unfold line_start; rewrite !append_assoc; reflexivity.
Qed.

Lemma format_trace_item_skipped trace_item level chain include_static_call st :
  emitted include_static_call trace_item = false ->
  format_trace_item world trace_item level chain include_static_call st
  = (Returned None, st).
Proof.
  unfold format_trace_item, emitted, call_label, is_create, item_action.
  destruct include_static_call; simpl; [discriminate|].
  destruct (String.eqb _ "STATICCALL"); [reflexivity | discriminate].
Qed.

Lemma format_trace_item_renders trace_item chain include_static_call st r st' :
  format_trace_item world trace_item (depth trace_item) chain include_static_call st
  = (Returned r, st') ->
  if emitted include_static_call trace_item
  then exists line, r = Some line /\ renders trace_item line
  else r = None.
Proof.
  intros H. apply format_trace_item_inv in H.
  destruct (emitted include_static_call trace_item).
  - destruct H as (value_str & name & st1 & call_rest & output_part & _ & _ & ->).
    eexists. split; [reflexivity|]. eexists. reflexivity.
  - apply H.
Qed.

(** The loop after the first record: each record that is not filtered
    appends its line, in the order of the list. *)
Lemma parse_loop_tail items : forall i chain include_static_call formatted_lines st lines st',
  parse_loop world (S i) items chain include_static_call formatted_lines st
  = (Returned lines, st') ->
  exists body,
    lines = (formatted_lines ++ body)%list
    /\ Forall2 renders (List.filter (emitted include_static_call) items) body.
Proof.
  induction items as [|trace_item rest IH]; intros i chain inc acc st lines st' H.
  - injection H as <- <-. exists []. split; [symmetry; apply app_nil_r | constructor].
  - cbn [parse_loop] in H. change (S i =? 0)%nat with false in H. cbv iota in H.
    unfold bind at 1 in H. unfold ret at 1 in H.
    apply bind_returned in H as (r & st1 & Hitem & H).
    apply format_trace_item_renders in Hitem.
    apply IH in H as (body & -> & Hbody).
    cbn [List.filter]. destruct (emitted inc trace_item).
    + destruct Hitem as (line & -> & Hline).
      exists (line :: body). split; [rewrite <- app_assoc; reflexivity|].
      constructor; assumption.
    + subst r. exists body. split; [reflexivity | assumption].
Qed.

(** The first record: the sender line when the record carries a [from],
    then as for the others. *)
Lemma parse_loop_first first rest chain include_static_call st lines st' :
  parse_loop world 0 (first :: rest) chain include_static_call [] st
  = (Returned lines, st') ->
  exists header body,
    lines = (header ++ body)%list
    /\ Forall2 renders (List.filter (emitted include_static_call) (first :: rest)) body
    /\ if nonempty (sender first)
       then exists name st1,
              get_contract_name world (sender first) chain st = (Returned name, st1)
              /\ header = ["[Sender] " +:+ name]
       else header = [].
Proof.
  intros H. cbn [parse_loop] in H. change (0 =? 0)%nat with true in H. cbv iota in H.
  change (get (Action.from (get (TraceItem.action first) Action.empty)) "")
    with (sender first) in H.
  apply bind_returned in H as (header & st1 & Hheader & H).
  apply bind_returned in H as (r & st2 & Hitem & H).
  apply format_trace_item_renders in Hitem.
  apply parse_loop_tail in H as (body & -> & Hbody).
  assert (Hhead : if nonempty (sender first)
       then exists name st1,
              get_contract_name world (sender first) chain st = (Returned name, st1)
              /\ header = ["[Sender] " +:+ name]
       else header = []).
  { destruct (nonempty (sender first)).
    - apply bind_returned in Hheader as (name & st0 & Hname & Hret).
      injection Hret as <- <-. eauto.
    - injection Hheader as <- <-. reflexivity. }
  cbn [List.filter]. destruct (emitted include_static_call first).
  - destruct Hitem as (line & -> & Hline).
    exists header, (line :: body). split; [rewrite <- app_assoc; reflexivity|].
    split; [constructor; assumption | assumption].
  - subst r. exists header, body. auto.
Qed.

End Rendering.

Lemma parse_trace_lines world items chain include_static_call st lines st' :
  parse_trace world (TraceData.mk (Some items)) chain include_static_call st
  = (Returned lines, st') ->
  exists header body,
    lines = (header ++ body)%list
    /\ is_header items header
    /\ Forall2 renders (List.filter (emitted include_static_call) items) body.
Proof.
  destruct items as [|first rest]; intros H.
  - injection H as <- <-. exists ["没有找到 trace 数据"], []. repeat split. constructor.
  - apply parse_loop_first in H as (header & body & -> & Hbody & Hheader).
    exists header, body. split; [reflexivity|]. split; [|assumption].
    simpl. destruct (nonempty (sender first)).
    + destruct Hheader as (name & _ & _ & ->). eauto.
    + auto.
Qed.

Lemma str_int_head z rest : leading_spaces (str_int z +:+ rest) = 0%nat.
Proof.
  unfold str_int. destruct (Z.to_int z) as [d|d]; [destruct d|]; reflexivity.
Qed.

Lemma leading_spaces_indent n s :
  leading_spaces (repeat_str "  " n +:+ s) = (2 * n + leading_spaces s)%nat.
Proof.
  induction n as [|n IH]; [reflexivity|].
  change (repeat_str "  " (S n) +:+ s)
    with (String " " (String " " (repeat_str "  " n +:+ s))).
  cbn [leading_spaces]. change (Ascii.eqb " " " ") with true. cbv iota.
  rewrite IH. lia.
Qed.

Lemma leading_spaces_line level label rest :
  leading_spaces (line_start level label +:+ rest) = (2 * level)%nat.
Proof.
  unfold line_start. rewrite !append_assoc, leading_spaces_indent, str_int_head. lia.
Qed.

(** ** C3: the STATICCALL filter *)

(** C3.  Rendered with [include_static_call = false], the lines of a trace
    are a header (nothing, the sender line, or the notice for an empty
    trace) followed by one line for each record whose label is not
    [STATICCALL], in the order of the records, each showing its own label
    and the depth of its [traceAddress]; rendered with
    [include_static_call = true] they are the header followed by one line for
    every record, each at that same depth.  The rendering does return when
    the [value] fields are well formed and the ABI decoder gives values of
    the shapes of the declared types. *)
Theorem static_call_filter world items chain st :
  (forall lines st',
     parse_trace world (TraceData.mk (Some items)) chain false st = (Returned lines, st') ->
     exists header body,
       lines = (header ++ body)%list
       /\ is_header items header
       /\ Forall2
            (fun trace_item line =>
               call_label trace_item <> "STATICCALL"
               /\ (exists rest,
                     line = line_start (depth trace_item) (call_label trace_item) +:+ rest)
               /\ leading_spaces line = (2 * depth trace_item)%nat)
            (List.filter
               (fun trace_item => negb (String.eqb (call_label trace_item) "STATICCALL"))
               items)
            body)
  /\ (forall lines st',
        parse_trace world (TraceData.mk (Some items)) chain true st = (Returned lines, st') ->
        exists header body,
          lines = (header ++ body)%list
          /\ is_header items header
          /\ length body = length items
          /\ Forall2
               (fun trace_item line =>
                  (exists rest,
                     line = line_start (depth trace_item) (call_label trace_item) +:+ rest)
                  /\ leading_spaces line = (2 * depth trace_item)%nat)
               items body)
  /\ (decoder_well_typed world ->
      forallb value_ok items = true ->
      forall include_static_call,
      exists lines st',
        parse_trace world (TraceData.mk (Some items)) chain include_static_call st
        = (Returned lines, st')).
Proof.
  split; [|split];
    [| |intros Hdec Hv inc; apply parse_trace_completes; assumption];
    intros lines st' H;
    apply parse_trace_lines in H as (header & body & -> & Hheader & Hbody);
    exists header, body; (split; [reflexivity|]); (split; [assumption|]).
  - change (List.filter (emitted false) items)
      with (List.filter
              (fun trace_item => negb (String.eqb (call_label trace_item) "STATICCALL"))
              items) in Hbody.
    remember (List.filter _ items) as kept eqn:Hkept.
    assert (Hkeep : Forall (fun trace_item => call_label trace_item <> "STATICCALL") kept).
    { subst kept. apply List.Forall_forall. intros x Hx.
      apply List.filter_In in Hx as [_ Hx]. apply negb_true_iff in Hx.
      intros Heq. rewrite Heq in Hx. discriminate. }
    clear Hkept. induction Hbody as [|trace_item line kept' body' Hline _ IH];
      constructor.
    + inversion Hkeep; subst. destruct Hline as [rest ->].
      split; [assumption|]. split; [eauto | apply leading_spaces_line].
    + apply IH. inversion Hkeep; assumption.
  - assert (Hall : List.filter (emitted true) items = items).
    { clear. induction items as [|x l IH]; simpl; [reflexivity | rewrite IH; reflexivity]. }
    rewrite Hall in Hbody. split; [symmetry; eapply Forall2_length; eassumption|].
    clear Hall Hheader. induction Hbody as [|trace_item line kept' body' Hline _ IH];
      [constructor|].
    constructor; [|assumption].
    destruct Hline as [rest ->]. split; [eauto | apply leading_spaces_line].
Qed.

Lemma static_call_filter_witness :
  exists header body,
    ["[Sender] " +:+ other_address;
     "0 [CALL] [value: 1.0 Ether] " +:+ sample_address +:+ ".0xa9059cbb() => ()"]
    = (header ++ body)%list
    /\ is_header [call_item; static_item] header
    /\ Forall2
         (fun trace_item line =>
            call_label trace_item <> "STATICCALL"
            /\ (exists rest,
                  line = line_start (depth trace_item) (call_label trace_item) +:+ rest)
            /\ leading_spaces line = (2 * depth trace_item)%nat)
         (List.filter
            (fun trace_item => negb (String.eqb (call_label trace_item) "STATICCALL"))
            [call_item; static_item])
         body.
Proof.
  apply (proj1 (static_call_filter silent_world [call_item; static_item] "ETH" init_state)
           _ (snd (parse_trace silent_world (TraceData.mk (Some [call_item; static_item]))
                     "ETH" false init_state))).
  vm_compute. reflexivity.
Defined.

(** ** C4: depth and order *)

(** C4.  The lines of a rendered trace are a header followed by the lines
    of the records that are not filtered out, in the order of the record
    list; the line of a record starts with two spaces for each element of its
    [traceAddress], then the length of the [traceAddress] and the label,
    whatever the record's position in the list.  A record whose
    [traceAddress] is [[0, 2]] is rendered at level 2. *)
Theorem depth_is_trace_address_length world items chain include_static_call st lines st' :
  parse_trace world (TraceData.mk (Some items)) chain include_static_call st
  = (Returned lines, st') ->
  exists header body,
    lines = (header ++ body)%list
    /\ is_header items header
    /\ Forall2
         (fun trace_item line =>
            let trace_address := get (TraceItem.traceAddress trace_item) [] in
            (exists rest,
               line = repeat_str "  " (length trace_address) +:+
                      str_int (Z.of_nat (length trace_address)) +:+ " [" +:+ rest)
            /\ leading_spaces line = (2 * length trace_address)%nat
            /\ (TraceItem.traceAddress trace_item = Some [0; 2] ->
                exists rest, line = "    2 [" +:+ rest))
         (List.filter (emitted include_static_call) items) body.
Proof.
  intros H. apply parse_trace_lines in H as (header & body & -> & Hheader & Hbody).
  exists header, body. split; [reflexivity|]. split; [assumption|].
  clear Hheader. induction Hbody as [|trace_item line kept body' Hline _ IH];
    [constructor|].
  constructor; [|assumption].
  destruct Hline as [rest ->]. cbv zeta. fold (depth trace_item).
  split; [|split].
  - exists (call_label trace_item +:+ "] " +:+ rest).
    unfold line_start. rewrite !append_assoc. reflexivity.
  - apply leading_spaces_line.
  - intros Haddr. unfold depth. rewrite Haddr.
    exists (call_label trace_item +:+ "] " +:+ rest).
    unfold line_start. rewrite !append_assoc. reflexivity.
Qed.

Lemma depth_is_trace_address_length_witness :
  exists header body,
    ["[Sender] " +:+ other_address;
     "0 [CALL] [value: 1.0 Ether] " +:+ sample_address +:+ ".0xa9059cbb() => ()";
     "    2 [DELEGATECALL] " +:+ other_address +:+ ".<empty>() => ()"]
    = (header ++ body)%list
    /\ is_header [call_item; static_item; nested_item] header
    /\ Forall2
         (fun trace_item line =>
            let trace_address := get (TraceItem.traceAddress trace_item) [] in
            (exists rest,
               line = repeat_str "  " (length trace_address) +:+
                      str_int (Z.of_nat (length trace_address)) +:+ " [" +:+ rest)
            /\ leading_spaces line = (2 * length trace_address)%nat
            /\ (TraceItem.traceAddress trace_item = Some [0; 2] ->
                exists rest, line = "    2 [" +:+ rest))
         (List.filter (emitted false) [call_item; static_item; nested_item]) body.
Proof.
  apply (depth_is_trace_address_length silent_world [call_item; static_item; nested_item]
           "ETH" false init_state _
           (snd (parse_trace silent_world
                   (TraceData.mk (Some [call_item; static_item; nested_item]))
                   "ETH" false init_state))).
  vm_compute. reflexivity.
Defined.

(** ** C9: the value annotation *)

(** C9.  In the line of a rendered record the text between the label and
    the contract name is [[value: X Ether] ] when the [value] field, read
    as a hex integer if it starts with [0x] and as a decimal integer
    otherwise, is strictly positive (which is when its quotient by
    [10 ^ 18] is), [X] being the [repr] of that quotient, and is empty
    otherwise.  [0x0] gives no annotation, the hex of [10 ^ 18] gives
    [[value: 1.0 Ether] ]. *)
Theorem value_annotation_iff_positive world trace_item level chain include_static_call
    st line st' :
  format_trace_item world trace_item level chain include_static_call st
  = (Returned (Some line), st') ->
  exists wei_int ether_value value_str contract_name st1 call_rest output_part,
    parse_wei (item_value trace_item) = Some wei_int
    /\ PyFloat.true_divide wei_int (10 ^ 18) = Some ether_value
    /\ PyFloat.positive ether_value = (0 <? wei_int)
    /\ value_str = (if 0 <? wei_int
                    then "[value: " +:+ PyFloat.repr ether_value +:+ " Ether] "
                    else "")
    /\ get_contract_name world (target trace_item) chain st = (Returned contract_name, st1)
    /\ line = line_start level (call_label trace_item) +:+ value_str +:+
              (contract_name +:+ "." +:+ call_rest) +:+ output_part
    /\ (item_value trace_item = "0x0" -> value_str = "")
    /\ (item_value trace_item = "0xde0b6b3a7640000" -> value_str = "[value: 1.0 Ether] ").
Proof.
  intros H. pose proof (format_trace_item_inv _ _ _ _ _ _ _ _ H) as Hinv.
  destruct (emitted include_static_call trace_item); [|destruct Hinv; discriminate].
  destruct Hinv as (value_str & name & st1 & call_rest & output_part
                    & (wei_int & ether_value & Hparse & Hdiv & Hstr) & Hname & Hline).
  injection Hline as ->.
  exists wei_int, ether_value, value_str, name, st1, call_rest, output_part.
  split; [assumption|]. split; [assumption|].
  split; [apply true_divide_positive; assumption|].
  split; [assumption|]. split; [assumption|]. split; [reflexivity|].
  split; intros Hvalue; rewrite Hvalue in Hparse.
  - vm_compute in Hparse. injection Hparse as <-. assumption.
  - vm_compute in Hparse. injection Hparse as <-.
    vm_compute in Hdiv. injection Hdiv as <-.
    rewrite Hstr. vm_compute. reflexivity.
Qed.

Lemma value_annotation_iff_positive_witness :
  exists wei_int ether_value value_str contract_name st1 call_rest output_part,
    parse_wei (item_value call_item) = Some wei_int
    /\ PyFloat.true_divide wei_int (10 ^ 18) = Some ether_value
    /\ PyFloat.positive ether_value = (0 <? wei_int)
    /\ value_str = (if 0 <? wei_int
                    then "[value: " +:+ PyFloat.repr ether_value +:+ " Ether] "
                    else "")
    /\ get_contract_name sample_world (target call_item) "ETH" init_state
       = (Returned contract_name, st1)
    /\ "0 [CALL] [value: 1.0 Ether] TetherToken.transfer(to=0x5aAeb6053F3E94C9b9A09f33669435E7Ef1BeAed, amount=1,000,000) => (output0=true)"
       = line_start 0 (call_label call_item) +:+ value_str +:+
         (contract_name +:+ "." +:+ call_rest) +:+ output_part
    /\ (item_value call_item = "0x0" -> value_str = "")
    /\ (item_value call_item = "0xde0b6b3a7640000" -> value_str = "[value: 1.0 Ether] ").
Proof.
  apply (value_annotation_iff_positive sample_world call_item 0 "ETH" true init_state _
           (snd (format_trace_item sample_world call_item 0 "ETH" true init_state))).
  vm_compute. reflexivity.
Defined.

(** ** C10: the sender line *)

Lemma parse_loop_all_skipped world items : forall i chain formatted_lines st,
  forallb (fun trace_item => negb (emitted false trace_item)) items = true ->
  parse_loop world (S i) items chain false formatted_lines st
  = (Returned formatted_lines, st).
Proof.
  induction items as [|trace_item rest IH]; intros i chain acc st Hall; [reflexivity|].
  cbn [forallb] in Hall. apply andb_true_iff in Hall as [Hskip Hrest].
  apply negb_true_iff in Hskip.
  cbn [parse_loop]. change (S i =? 0)%nat with false. cbv iota.
  unfold bind at 1. unfold ret at 1.
  rewrite (bind_step _ _ _ _ _ (format_trace_item_skipped world _ _ _ _ _ Hskip)).
  apply IH. assumption.
Qed.

(** C10.  When the first record of a trace carries a non-empty [from], the
    name of that address is resolved before anything else and every
    rendering that returns starts with the line [[Sender] name].  This does
    not depend on the first record being emitted: with
    [include_static_call = false] and a trace of [STATICCALL] records only,
    the rendering returns the sender line and nothing else. *)
Theorem sender_line_is_unconditional world first rest chain include_static_call st :
  nonempty (get (Action.from (get (TraceItem.action first) Action.empty)) "") = true ->
  exists sender_name st1,
    get_contract_name world
      (get (Action.from (get (TraceItem.action first) Action.empty)) "") chain st
    = (Returned sender_name, st1)
    /\ (forall lines st',
          parse_trace world (TraceData.mk (Some (first :: rest))) chain include_static_call st
          = (Returned lines, st') ->
          exists body, lines = ("[Sender] " +:+ sender_name) :: body)
    /\ (forallb (fun trace_item => negb (emitted false trace_item)) (first :: rest) = true ->
        parse_trace world (TraceData.mk (Some (first :: rest))) chain false st
        = (Returned ["[Sender] " +:+ sender_name], st1)).
Proof.
  intros Hfrom. fold (item_action first) in *. fold (sender first) in *.
  destruct (get_contract_name_returns world (sender first) chain st)
    as (sender_name & st1 & Hname).
  exists sender_name, st1. split; [assumption|]. split.
  - intros lines st' H. apply parse_loop_first in H as (header & body & -> & _ & Hheader).
    rewrite Hfrom in Hheader. destruct Hheader as (name & st0 & Hname' & ->).
    rewrite Hname in Hname'. injection Hname' as <- <-. eauto.
  - intros Hall. cbn [forallb] in Hall. apply andb_true_iff in Hall as [Hskip Hrest].
    apply negb_true_iff in Hskip.
    change (parse_loop world 0 (first :: rest) chain false [] st
            = (Returned ["[Sender] " +:+ sender_name], st1)).
    cbn [parse_loop]. change (0 =? 0)%nat with true. cbv iota.
    change (get (Action.from (get (TraceItem.action first) Action.empty)) "")
      with (sender first).
    rewrite Hfrom.
    unfold bind at 1. unfold bind at 1. rewrite Hname. unfold ret at 1.
    rewrite (bind_step _ _ _ _ _ (format_trace_item_skipped world _ _ _ _ _ Hskip)).
    apply parse_loop_all_skipped. assumption.
Qed.

Lemma sender_line_is_unconditional_witness :
  parse_trace silent_world (TraceData.mk (Some [static_item; static_item])) "ETH" false
    init_state
  = (Returned ["[Sender] " +:+ sample_address],
     {| contract_cache := ∅; requests := [(1, lower sample_address)] |}).
Proof.
  destruct (sender_line_is_unconditional silent_world static_item [static_item] "ETH"
              false init_state) as (sender_name & st1 & Hname & _ & Hskip).
  - vm_compute. reflexivity.
  - vm_compute in Hname. injection Hname as <- <-.
    apply Hskip. vm_compute. reflexivity.
Defined.

(** * Further properties of the code *)

(** ** The signature resolver *)

Lemma function_info_parallel item :
  length (FunctionInfo.input_types (function_info item))
  = length (FunctionInfo.input_names (function_info item))
  /\ length (FunctionInfo.output_types (function_info item))
     = length (FunctionInfo.output_names (function_info item)).
Proof. unfold function_info. simpl. rewrite !length_map. auto. Qed.

(** X1.  Every entry of the table [parse_abi] builds comes from an ABI
    entry of type [function]; it is stored under its own selector, and its
    lists of types and names have the same lengths. *)
Theorem parse_abi_entries abi selector f :
  parse_abi abi !! selector = Some f ->
  exists item,
    In item abi /\ is_function item = true /\ f = function_info item
    /\ FunctionInfo.signature f = selector
    /\ length (FunctionInfo.input_types f) = length (FunctionInfo.input_names f)
    /\ length (FunctionInfo.output_types f) = length (FunctionInfo.output_names f).
Proof.
  unfold parse_abi.
  assert (H : forall (m : gmap string FunctionInfo.t),
    (forall s g, m !! s = Some g ->
       exists item, In item abi /\ is_function item = true /\ g = function_info item
                    /\ FunctionInfo.signature g = s) ->
    forall items, (forall item, In item items -> In item abi) ->
    forall s g, fold_left parse_abi_step items m !! s = Some g ->
       exists item, In item abi /\ is_function item = true /\ g = function_info item
                    /\ FunctionInfo.signature g = s).
  { intros m Hm items. revert m Hm.
    induction items as [|item rest IH]; intros m Hm Hin; simpl; [exact Hm|].
    apply IH; [|intros x Hx; apply Hin; right; exact Hx].
    intros s g. unfold parse_abi_step.
    destruct (is_function item) eqn:Hfun; [|apply Hm].
    rewrite lookup_insert. case_decide as Heq; [|apply Hm].
    intros [= <-]. exists item. split; [apply Hin; left; reflexivity|]. auto. }
  intros Hf.
  destruct (H ∅ (fun s g Hs => ltac:(rewrite lookup_empty in Hs; discriminate)) abi
              (fun item Hin => Hin) selector f Hf)
    as (item & Hin & Hfun & -> & Hsig).
  exists item. pose proof (function_info_parallel item) as [Hi Ho]. auto 10.
Qed.

Lemma parse_abi_entries_witness :
  exists item,
    In item [transfer_item] /\ is_function item = true
    /\ function_info transfer_item = function_info item
    /\ FunctionInfo.signature (function_info transfer_item) = "0xa9059cbb"
    /\ length (FunctionInfo.input_types (function_info transfer_item))
       = length (FunctionInfo.input_names (function_info transfer_item))
    /\ length (FunctionInfo.output_types (function_info transfer_item))
       = length (FunctionInfo.output_names (function_info transfer_item)).
Proof.
  apply (parse_abi_entries [transfer_item] "0xa9059cbb" (function_info transfer_item)).
  vm_compute. reflexivity.
Defined.

(** ** Naming decoded parameters *)

(** X2.  The parameter at position [i] of a decode exists when the type
    list, the name list and the decoded values all have one there; it
    carries the declared name, or the prefix followed by its own position
    when the declared name is empty. *)
Theorem name_params_lookup prefix types : forall k names decoded (i : nat),
  name_params prefix k types names decoded !! i =
  match types !! i, names !! i, decoded !! i with
  | Some param_type, Some param_name, Some value =>
      Some (if nonempty param_name then param_name
            else prefix +:+ str_int (Z.of_nat (k + i)),
            param_type, value)
  | _, _, _ => None
  end.
Proof.
  induction types as [|t types IH]; intros k names decoded i; [reflexivity|].
  destruct names as [|n names].
  { simpl. destruct ((t :: types) !! i); reflexivity. }
  destruct decoded as [|v decoded].
  { simpl. destruct ((t :: types) !! i), ((n :: names) !! i); reflexivity. }
  destruct i as [|i]; simpl.
  - rewrite Nat.add_0_r. reflexivity.
  - rewrite IH. replace (S k + i)%nat with (k + S i)%nat by lia. reflexivity.
Qed.

(** ** Hex text and bytes *)

Lemma hex_digit_value d :
  0 <= d < 16 ->
  hex_value (hex_digit d) = Some d /\ is_space (hex_digit d) = false.
Proof.
  intros H.
  assert (d = 0 \/ d = 1 \/ d = 2 \/ d = 3 \/ d = 4 \/ d = 5 \/ d = 6 \/ d = 7 \/ d = 8
          \/ d = 9 \/ d = 10 \/ d = 11 \/ d = 12 \/ d = 13 \/ d = 14 \/ d = 15) as Hd by lia.
  repeat destruct Hd as [->|Hd]; try subst d; vm_compute; auto.
Qed.

(** X3.  What [bytes.hex()] writes, [bytes.fromhex] reads back: the hex
    text the formatter prints for a byte string (after its [0x]) decodes to
    the same bytes. *)
Theorem fromhex_hex bs : Forall is_byte bs -> fromhex (hex bs) = Some bs.
Proof.
  unfold fromhex. induction 1 as [|b rest Hb _ IH]; [reflexivity|].
  unfold is_byte in Hb.
  assert (H1 : 0 <= b / 16 < 16)
    by (split; [apply Z.div_pos; lia | apply Z.div_lt_upper_bound; lia]).
  assert (H2 : 0 <= b mod 16 < 16) by (apply Z.mod_pos_bound; lia).
  destruct (hex_digit_value _ H1) as [Hv1 Hs1].
  destruct (hex_digit_value _ H2) as [Hv2 Hs2].
  cbn [hex list_ascii_of_string fromhex_list].
  rewrite Hs1, Hv1, Hv2, IH. simpl. f_equal. f_equal.
  pose proof (Z.div_mod b 16). lia.
Qed.

Lemma fromhex_hex_witness : fromhex (hex [0; 171; 255]) = Some [0; 171; 255].
Proof.
  apply fromhex_hex. repeat constructor; unfold is_byte; lia.
Defined.

(** ** The selector of call data *)

(** X4.  [get_function_signature] gives the first ten characters of call
    data that has at least ten, and shorter call data whole; it gives the
    sentinel [<empty>] exactly for the call data [""], ["0x"] and
    ["<empty>"] itself. *)
Theorem get_function_signature_cases input_data :
  ((10 <= String.length input_data)%nat ->
   get_function_signature input_data = take_str 10 input_data
   /\ String.length (get_function_signature input_data) = 10%nat)
  /\ ((String.length input_data < 10)%nat -> input_data <> "" -> input_data <> "0x" ->
      get_function_signature input_data = input_data)
  /\ (get_function_signature input_data = "<empty>"
      <-> input_data = "" \/ input_data = "0x" \/ input_data = "<empty>").
Proof.
  unfold get_function_signature, nonempty.
  destruct (String.eqb_spec input_data "") as [->|Hne].
  { simpl. split; [intros H; simpl in H; lia|]. split; [congruence|]. tauto. }
  destruct (String.eqb_spec input_data "0x") as [->|Hne2].
  { simpl. split; [intros H; simpl in H; lia|]. split; [congruence|]. tauto. }
  cbn [negb orb]. destruct (Nat.leb_spec 10 (String.length input_data)) as [Hlen|Hlen].
  - split; [intros _; split; [reflexivity | apply length_take_str; exact Hlen]|].
    split; [lia|]. split.
    + intros H. apply (f_equal String.length) in H.
      rewrite length_take_str in H by exact Hlen. discriminate.
    + intros [->|[->| ->]]; [congruence | congruence | simpl in Hlen; lia].
  - split; [lia|]. split; [reflexivity|]. split; [auto|].
    intros [->|[->| ->]]; congruence.
Qed.

Lemma get_function_signature_cases_witness :
  get_function_signature "0xa9059cbb0000" = take_str 10 "0xa9059cbb0000"
  /\ String.length (get_function_signature "0xa9059cbb0000") = 10%nat.
Proof.
  apply (get_function_signature_cases "0xa9059cbb0000"). simpl. lia.
Defined.

(** ** Thousands separators *)

Lemma filter_group3 fuel : forall l,
  List.filter keep_char (group3 fuel l) = List.filter keep_char l.
Proof.
  induction fuel as [|fuel IH]; intros l; [reflexivity|].
  destruct l as [|a [|b [|c [|d rest]]]]; try reflexivity.
  cbn [group3 List.filter]. rewrite IH. cbn [List.filter].
  change (keep_char ",") with false. reflexivity.
Qed.

Lemma keep_uint d :
  List.filter keep_char (list_ascii_of_string (NilEmpty.string_of_uint d))
  = list_ascii_of_string (NilEmpty.string_of_uint d).
Proof. induction d; simpl; [reflexivity | f_equal; assumption ..]. Qed.

Lemma keep_str_int z :
  List.filter keep_char (list_ascii_of_string (str_int z))
  = list_ascii_of_string (str_int z).
Proof.
  unfold str_int. destruct (Z.to_int z) as [d|d]; simpl.
  - destruct d; try reflexivity; apply (keep_uint (_ _)).
  - f_equal. destruct d; try reflexivity; apply (keep_uint (_ _)).
Qed.

Lemma str_int_negative z : z < 0 -> str_int z = "-" +:+ str_int (Z.abs z).
Proof. destruct z; try lia. intros _. reflexivity. Qed.

(** X5.  Taking the commas out of what [f"{n:,}"] prints gives [str(n)]:
    the separators never replace or drop a digit or the sign. *)
Theorem format_thousands_digits z : remove_commas (format_thousands z) = str_int z.
Proof.
  unfold remove_commas, format_thousands.
  set (digits := list_ascii_of_string (str_int (Z.abs z))).
  assert (Hgrouped :
    List.filter keep_char (rev (group3 (length digits) (rev digits))) = digits).
  { rewrite List.filter_rev, filter_group3, <- List.filter_rev, rev_involutive.
    apply keep_str_int. }
  destruct (Z.ltb_spec z 0) as [Hneg|Hpos].
  - change ("-" +:+ ?g) with (String "-" g). cbn [list_ascii_of_string List.filter].
    change (keep_char "-") with true. cbv iota.
    rewrite list_ascii_of_string_of_list_ascii, Hgrouped.
    subst digits. cbn [string_of_list_ascii]. rewrite string_of_list_ascii_of_string.
    rewrite (str_int_negative z Hneg). reflexivity.
  - rewrite list_ascii_of_string_of_list_ascii, Hgrouped.
    subst digits. rewrite string_of_list_ascii_of_string.
    rewrite Z.abs_eq by exact Hpos. reflexivity.
Qed.

(** ** Invariants of the cache and of the request log *)

Lemma lower_char_idem c : lower_char (lower_char c) = lower_char c.
Proof. destruct c as [[] [] [] [] [] [] [] []]; vm_compute; reflexivity. Qed.

Lemma lower_idem s : lower (lower s) = lower s.
Proof.
  unfold lower. induction s as [|c s IH]; simpl; [reflexivity|].
  rewrite lower_char_idem, IH. reflexivity.
Qed.

Lemma chain_id_known chain :
  get (chain_ids !! chain) 1 = 1 \/ get (chain_ids !! chain) 1 = 56
  \/ get (chain_ids !! chain) 1 = 137.
Proof.
  unfold chain_ids. rewrite !lookup_insert, lookup_empty.
  repeat case_decide; simpl; auto.
Qed.

#[local] Instance keeps_sane_preorder :
  PreOrder (fun st st' => cache_sane st -> cache_sane st').
Proof. split; [intros st H; exact H | intros s1 s2 s3 H12 H23 H; auto]. Qed.

#[local] Instance extends_preorder : PreOrder extends.
Proof.
  split.
  - intros st. split; [auto|]. exists []. rewrite app_nil_r. simpl.
    split; [reflexivity|]. split; [constructor | lia].
  - intros s1 s2 s3 [K12 (n12 & R12 & F12 & S12)] [K23 (n23 & R23 & F23 & S23)].
    split; [auto|]. exists (n12 ++ n23)%list.
    rewrite R23, R12, <- app_assoc. split; [reflexivity|].
    split; [apply Forall_app; auto | rewrite length_app; lia].
Qed.

Section CacheInvariants.

Variable world : World.

Lemma get_contract_info_cases address chain st :
  contract_cache st !! lower address = None ->
  well_formed (lower address) = true ->
  let logged := {| contract_cache := contract_cache st;
                   requests := requests st ++ [(get (chain_ids !! chain) 1, lower address)] |} in
  get_contract_info world address chain st = (Returned None, logged)
  \/ get_contract_info world address chain st
     = (Returned None,
        {| contract_cache := <[lower address := None]> (contract_cache st);
           requests := requests logged |})
  \/ exists info,
       info_sane (lower address) info
       /\ get_contract_info world address chain st
          = (Returned (Some info),
             {| contract_cache := <[lower address := Some info]> (contract_cache st);
                requests := requests logged |}).
Proof.
  intros Hmiss Hw logged. unfold get_contract_info. rewrite Hmiss.
  unfold well_formed in Hw. apply andb_true_iff in Hw as [-> ->]. simpl.
  unfold try_except, bind, etherscan_lookup, cache_store, of_option, ret, raise.
  destruct (_make_etherscan_request world _ _ _) as [[|result others]|];
    [left; reflexivity | | left; reflexivity].
  destruct (nonempty (get (ContractName result) "")) eqn:Hname; simpl;
    [|right; left; reflexivity].
  assert (Hsane : forall functions abi_str,
    (forall s f, functions !! s = Some f ->
       FunctionInfo.signature f = s /\ String.length s = 10%nat) ->
    info_sane (lower address)
      (ContractInfo.mk (lower address) (get (ContractName result) "") functions abi_str)).
  { intros functions abi_str Hf. split; [reflexivity|]. split; [exact Hname | exact Hf]. }
  assert (Hempty : forall s f, (∅ : gmap string FunctionInfo.t) !! s = Some f ->
    FunctionInfo.signature f = s /\ String.length s = 10%nat).
  { intros s f H. rewrite lookup_empty in H. discriminate. }
  assert (Hparsed : forall abi s f, parse_abi abi !! s = Some f ->
    FunctionInfo.signature f = s /\ String.length s = 10%nat).
  { intros abi s f H. split; [|eapply parse_abi_keys; exact H].
    apply parse_abi_entries in H as (item & _ & _ & _ & Hsig & _). exact Hsig. }
  repeat case_world;
    first [ left; reflexivity
          | right; right; eexists; split; [|reflexivity]; apply Hsane;
            first [exact Hempty | apply Hparsed] ].
Qed.

Lemma get_contract_info_keeps_sane address chain :
  frames (fun st st' => cache_sane st -> cache_sane st')
    (get_contract_info world address chain).
Proof.
  intros st Hsane.
  destruct (contract_cache st !! lower address) as [entry|] eqn:Hc.
  { rewrite (get_contract_info_hit world _ chain _ _ Hc). exact Hsane. }
  destruct (well_formed (lower address)) eqn:Hw.
  2: { rewrite (get_contract_info_malformed world _ chain _ Hc Hw). exact Hsane. }
  assert (Hins : forall entry log,
    (forall info, entry = Some info -> info_sane (lower address) info) ->
    cache_sane {| contract_cache := <[lower address := entry]> (contract_cache st);
                  requests := log |}).
  { intros entry log He key e. simpl. rewrite lookup_insert.
    case_decide as Hk; [|apply Hsane].
    intros [= <-]. subst key. split; [apply lower_idem|]. split; [exact Hw | exact He]. }
  destruct (get_contract_info_cases address chain st Hc Hw) as [E|[E|(info & Hi & E)]];
    rewrite E; simpl.
  - exact Hsane.
  - apply Hins. discriminate.
  - apply Hins. intros info' [= <-]. exact Hi.
Qed.

Lemma get_contract_info_extends address chain :
  frames extends (get_contract_info world address chain).
Proof.
  intros st.
  destruct (contract_cache st !! lower address) as [entry|] eqn:Hc.
  { rewrite (get_contract_info_hit world _ chain _ _ Hc). reflexivity. }
  destruct (well_formed (lower address)) eqn:Hw.
  2: { rewrite (get_contract_info_malformed world _ chain _ Hc Hw). reflexivity. }
  assert (Hreq : Forall request_ok [(get (chain_ids !! chain) 1, lower address)]).
  { constructor; [|constructor]. split; [apply chain_id_known|].
    split; [exact Hw | apply lower_idem]. }
  assert (Hins : forall entry,
    extends st {| contract_cache := <[lower address := entry]> (contract_cache st);
                  requests := requests st ++ [(get (chain_ids !! chain) 1, lower address)] |}).
  { intros entry. split.
    - intros key e He. simpl. rewrite lookup_insert_ne; [exact He | congruence].
    - eexists. split; [reflexivity|]. split; [exact Hreq|].
      simpl. rewrite map_size_insert_None by exact Hc. lia. }
  destruct (get_contract_info_cases address chain st Hc Hw) as [E|[E|(info & Hi & E)]];
    rewrite E; simpl; [|apply Hins..].
  split; [auto|]. eexists. split; [reflexivity|]. split; [exact Hreq | simpl; lia].
Qed.

(** X6.  Rendering keeps the cache well formed: every key is a
    well-formed lower-cased address, and a cached contract carries that
    address, a non-empty name and a function table in which each entry is
    stored under its own ten-character selector. *)
Theorem rendering_keeps_cache_sane trace_data chain include_static_call st :
  cache_sane st ->
  cache_sane (snd (parse_trace world trace_data chain include_static_call st)).
Proof.
  apply (frames_parse_trace (fun st st' => cache_sane st -> cache_sane st') world
           get_contract_info_keeps_sane).
Qed.

(** X7.  Rendering never changes or drops a cache entry; it only appends
    to the request log, every request it sends carries a chain id among 1,
    56 and 137 and a well-formed lower-cased address, and the cache grows
    by at most one entry for each request sent. *)
Theorem rendering_extends_state trace_data chain include_static_call st :
  let st' := snd (parse_trace world trace_data chain include_static_call st) in
  (forall key entry,
     contract_cache st !! key = Some entry -> contract_cache st' !! key = Some entry)
  /\ exists new,
       requests st' = (requests st ++ new)%list
       /\ Forall request_ok new
       /\ (size (contract_cache st') <= size (contract_cache st) + length new)%nat.
Proof.
  apply (frames_parse_trace extends world get_contract_info_extends).
Qed.

(** X8.  An address that is not [0x] followed by 40 characters is never
    looked up: in a well-formed cache [get_contract_info] answers [None] for
    it and [get_contract_name] gives the address back as it was passed,
    without a request and without a cache entry. *)
Theorem malformed_address_is_not_requested address chain st :
  cache_sane st ->
  well_formed (lower address) = false ->
  get_contract_info world address chain st = (Returned None, st)
  /\ get_contract_name world address chain st = (Returned address, st).
Proof.
  intros Hsane Hw.
  assert (Hmiss : contract_cache st !! lower address = None).
  { destruct (contract_cache st !! lower address) as [entry|] eqn:Hc; [|reflexivity].
    destruct (Hsane _ _ Hc) as (_ & Hw' & _). congruence. }
  pose proof (get_contract_info_malformed world address chain st Hmiss Hw) as E.
  split; [exact E|]. unfold get_contract_name. rewrite (bind_step _ _ _ _ _ E). reflexivity.
Qed.

End CacheInvariants.

Lemma cache_sane_init : cache_sane init_state.
Proof. intros key entry H. simpl in H. rewrite lookup_empty in H. discriminate. Qed.

Lemma rendering_keeps_cache_sane_witness :
  cache_sane
    (snd (parse_trace sample_world (TraceData.mk (Some [call_item; static_item])) "ETH" true
            init_state)).
Proof. apply rendering_keeps_cache_sane. exact cache_sane_init. Defined.

Lemma rendering_extends_state_witness :
  let st' := snd (parse_trace sample_world (TraceData.mk (Some [call_item; static_item]))
                    "ETH" true known_unverified) in
  (forall key entry,
     contract_cache known_unverified !! key = Some entry ->
     contract_cache st' !! key = Some entry)
  /\ exists new,
       requests st' = (requests known_unverified ++ new)%list
       /\ Forall request_ok new
       /\ (size (contract_cache st') <= size (contract_cache known_unverified) + length new)%nat.
Proof.
  exact (rendering_extends_state sample_world
           (TraceData.mk (Some [call_item; static_item])) "ETH" true known_unverified).
Defined.

Lemma malformed_address_is_not_requested_witness :
  get_contract_info sample_world "" "ETH" init_state = (Returned None, init_state)
  /\ get_contract_name sample_world "" "ETH" init_state = (Returned "", init_state).
Proof.
  apply malformed_address_is_not_requested; [exact cache_sane_init | reflexivity].
Defined.

(** ** Decoding twice *)

Section Repeatable.

Variable world : World.

Lemma get_contract_info_answer_cached address chain st info st' :
  get_contract_info world address chain st = (Returned (Some info), st') ->
  contract_cache st' !! lower address = Some (Some info).
Proof.
  intros H.
  destruct (contract_cache st !! lower address) as [entry|] eqn:Hc.
  { rewrite (get_contract_info_hit world _ chain _ _ Hc) in H.
    injection H as -> <-. exact Hc. }
  destruct (well_formed (lower address)) eqn:Hw.
  2: { rewrite (get_contract_info_malformed world _ chain _ Hc Hw) in H. discriminate. }
  destruct (get_contract_info_cases world address chain st Hc Hw)
    as [E|[E|(info' & _ & E)]]; rewrite E in H; try discriminate.
  injection H as -> <-. simpl. apply lookup_insert_eq.
Qed.

(** X9.  A decode that produced parameters can be repeated: called again
    in the state it left, [decode_input_data] (and [decode_output_data])
    gives the same parameters and changes nothing, so it sends no request. *)
Theorem decoding_is_repeatable address input_data output_data chain st params st' :
  params <> [] ->
  (decode_input_data world address input_data chain st = (Returned params, st') ->
   decode_input_data world address input_data chain st' = (Returned params, st'))
  /\ (decode_output_data world address input_data output_data chain st
      = (Returned params, st') ->
      decode_output_data world address input_data output_data chain st'
      = (Returned params, st')).
Proof.
  intros Hne. split; intros H.
  - unfold decode_input_data in *.
    destruct (_ || _); [injection H as <- _; congruence|].
    apply bind_returned in H as ([info|] & st1 & Hinfo & H);
      [|injection H as <- _; congruence].
    pose proof (get_contract_info_answer_cached _ _ _ _ _ Hinfo) as Hc.
    assert (st' = st1) as ->.
    { destruct (ContractInfo.functions info !! _); [|injection H as _ <-; reflexivity].
      unfold try_except, bind, of_option, ret, raise in H.
      repeat (match type of H with
              | context [nonempty ?x] => destruct (nonempty x)
              | context [bool_decide ?P] => destruct (bool_decide P)
              | context [fromhex ?x] => destruct (fromhex x)
              | context [decode ?w ?t ?r] => destruct (decode w t r)
              end; simpl in H);
        injection H as _ <-; reflexivity. }
    rewrite (bind_step _ _ _ _ _ (get_contract_info_hit world _ chain _ _ Hc)). exact H.
  - unfold decode_output_data in *.
    destruct (_ || _); [injection H as <- _; congruence|].
    apply bind_returned in H as ([info|] & st1 & Hinfo & H);
      [|injection H as <- _; congruence].
    pose proof (get_contract_info_answer_cached _ _ _ _ _ Hinfo) as Hc.
    assert (st' = st1) as ->.
    { destruct (ContractInfo.functions info !! _); [|injection H as _ <-; reflexivity].
      unfold try_except, bind, of_option, ret, raise in H.
      repeat (match type of H with
              | context [nonempty ?x] => destruct (nonempty x)
              | context [bool_decide ?P] => destruct (bool_decide P)
              | context [fromhex ?x] => destruct (fromhex x)
              | context [decode ?w ?t ?r] => destruct (decode w t r)
              end; simpl in H);
        injection H as _ <-; reflexivity. }
    rewrite (bind_step _ _ _ _ _ (get_contract_info_hit world _ chain _ _ Hc)). exact H.
Qed.

End Repeatable.

Lemma decoding_is_repeatable_witness :
  let first :=
    decode_input_data sample_world sample_address
      (get (Action.input (item_action call_item)) "") "ETH" init_state in
  decode_input_data sample_world sample_address
    (get (Action.input (item_action call_item)) "") "ETH" (snd first)
  = (Returned [("to", "address", PStr "0x5aaeb6053f3e94c9b9a09f33669435e7ef1beaed");
               ("amount", "uint256", PInt 1000000)], snd first).
Proof.
  apply (decoding_is_repeatable sample_world sample_address
           (get (Action.input (item_action call_item)) "") "" "ETH" init_state).
  - discriminate.
  - vm_compute. reflexivity.
Defined.

(** ** Arrays whose element type is not shadowed *)

Lemma append_cons c s t : String c s +:+ t = String c (s +:+ t).
Proof. reflexivity. Qed.

Lemma drop_str_append s t : drop_str (String.length s) (s +:+ t) = t.
Proof.
  induction s as [|c s IH]; [destruct t; reflexivity|].
  rewrite append_cons. simpl. exact IH.
Qed.

Lemma take_str_append s t : take_str (String.length s) (s +:+ t) = s.
Proof.
  induction s as [|c s IH]; [destruct t; reflexivity|].
  rewrite append_cons. simpl. rewrite IH. reflexivity.
Qed.

Lemma endswith_append s t : endswith (s +:+ t) t = true.
Proof.
  unfold endswith. rewrite length_append.
  replace (String.length s + String.length t - String.length t)%nat
    with (String.length s) by lia.
  rewrite drop_str_append, String.eqb_refl, andb_true_r.
  apply Nat.leb_le. lia.
Qed.

Lemma drop_last_append s t : drop_last (String.length t) (s +:+ t) = s.
Proof.
  unfold drop_last. rewrite length_append.
  replace (String.length s + String.length t - String.length t)%nat
    with (String.length s) by lia.
  apply take_str_append.
Qed.

Lemma startswith_false_cons c s d p :
  startswith (String c s) (String d p) = false <-> d <> c \/ startswith s p = false.
Proof.
  unfold startswith. cbn [String.prefix].
  destruct (Ascii.ascii_dec d c) as [->|Hne].
  - split; [auto | intros [H|H]; [congruence | exact H]].
  - split; [auto | reflexivity].
Qed.

Lemma startswith_brackets p : forall s,
  forallb (fun c => negb (Ascii.eqb c "[")) (list_ascii_of_string p) = true ->
  startswith s p = false ->
  startswith (s +:+ "[]") p = false.
Proof.
  induction p as [|d p IH]; intros s Hp Hs.
  - destruct s; discriminate.
  - simpl in Hp. apply andb_true_iff in Hp as [Hd Hp].
    destruct s as [|c s].
    + change ("" +:+ "[]") with "[]". apply startswith_false_cons. left.
      intros ->. discriminate.
    + rewrite append_cons. apply startswith_false_cons.
      apply startswith_false_cons in Hs as [Hne|Hs]; [left; exact Hne|].
      right. apply IH; assumption.
Qed.

Section Arrays.

Variable world : World.

Lemma format_value_array elems element_type chain :
  startswith element_type "uint" = false ->
  startswith element_type "int" = false ->
  startswith element_type "bytes" = false ->
  format_value world (PList elems) (element_type +:+ "[]") chain
  = (do formatted_elements <-
       map_M (fun elem => format_value world elem element_type chain) elems ;;
     ret ("[" +:+ join ", " formatted_elements +:+ "]"))
  /\ format_value world (PTuple elems) (element_type +:+ "[]") chain
     = (do formatted_elements <-
          map_M (fun elem => format_value world elem element_type chain) elems ;;
        ret ("[" +:+ join ", " formatted_elements +:+ "]")).
Proof.
  intros Huint Hint Hbytes.
  pose proof (endswith_append element_type "[]") as Hend.
  assert (Hne : forall tag, endswith tag "[]" = false ->
                            String.eqb (element_type +:+ "[]") tag = false).
  { intros tag Htag. destruct (String.eqb_spec (element_type +:+ "[]") tag) as [E|]; [|reflexivity].
    rewrite E in Hend. congruence. }
  rewrite !format_value_eq.
  rewrite (Hne "address") by reflexivity. rewrite (Hne "bool") by reflexivity.
  rewrite (startswith_brackets "uint") by (reflexivity || assumption).
  rewrite (startswith_brackets "int") by (reflexivity || assumption).
  rewrite (startswith_brackets "bytes") by (reflexivity || assumption).
  rewrite Hend. cbn [orb].
  change 2%nat with (String.length "[]"). rewrite drop_last_append. auto.
Qed.

(** X10.  For an element type that does not begin with [uint], [int] or
    [bytes], an array is formatted element by element, in order, each
    element with the element type and in the state the previous one left:
    two elements that format as [sa] and [sb] give
    ["[" ++ sa ++ ", " ++ sb ++ "]"], for a list as for a tuple. *)
Theorem format_value_array_pair a b element_type chain st sa s1 sb s2 :
  startswith element_type "uint" = false ->
  startswith element_type "int" = false ->
  startswith element_type "bytes" = false ->
  format_value world a element_type chain st = (Returned sa, s1) ->
  format_value world b element_type chain s1 = (Returned sb, s2) ->
  format_value world (PList [a; b]) (element_type +:+ "[]") chain st
  = (Returned ("[" +:+ sa +:+ ", " +:+ sb +:+ "]"), s2)
  /\ format_value world (PTuple [a; b]) (element_type +:+ "[]") chain st
     = (Returned ("[" +:+ sa +:+ ", " +:+ sb +:+ "]"), s2).
Proof.
  intros Huint Hint Hbytes Ha Hb.
  destruct (format_value_array [a; b] element_type chain Huint Hint Hbytes) as [-> ->].
  cbn [map_M]. unfold bind, ret. rewrite Ha, Hb. cbn [join].
  rewrite !append_assoc. split; reflexivity.
Qed.

End Arrays.

Lemma format_value_array_pair_witness :
  format_value sample_world
    (PList [PStr (lower sample_address); PStr other_address]) ("address" +:+ "[]") "ETH"
    init_state
  = (Returned ("[" +:+ "TetherToken" +:+ ", "
               +:+ "0x00000000000000000000000000000000000000AA" +:+ "]"),
     snd (format_value sample_world (PStr other_address) "address" "ETH"
            (snd (format_value sample_world (PStr (lower sample_address)) "address" "ETH"
                    init_state)))).
Proof.
  apply (format_value_array_pair sample_world (PStr (lower sample_address))
           (PStr other_address) "address" "ETH" init_state _
           (snd (format_value sample_world (PStr (lower sample_address)) "address" "ETH"
                   init_state))).
  - reflexivity.
  - reflexivity.
  - reflexivity.
  - vm_compute. reflexivity.
  - vm_compute. reflexivity.
Defined.

(** ** Address parameters and the cache *)

Lemma lower_upper_char c : lower_char (upper_char c) = lower_char c.
Proof. destruct c as [[] [] [] [] [] [] [] []]; vm_compute; reflexivity. Qed.

Lemma lower_checksum_case body : forall hash,
  (length body <= length hash)%nat ->
  map lower_char (checksum_case body hash) = map lower_char body.
Proof.
  induction body as [|c body IH]; intros [|h hash] Hlen; simpl in *; try lia;
    try reflexivity.
  rewrite IH by lia. f_equal.
  destruct (7 <? _); [apply lower_upper_char | reflexivity].
Qed.

Lemma lower_string_of_list l :
  lower (string_of_list_ascii l) = string_of_list_ascii (map lower_char l).
Proof. unfold lower. induction l as [|c l IH]; simpl; [reflexivity | rewrite IH; reflexivity]. Qed.

Lemma map_lower_list s :
  map lower_char (list_ascii_of_string s) = list_ascii_of_string (lower s).
Proof. unfold lower. induction s as [|c s IH]; simpl; [reflexivity | rewrite IH; reflexivity]. Qed.

Lemma length_list_ascii s : length (list_ascii_of_string s) = String.length s.
Proof. induction s as [|c s IH]; simpl; [reflexivity | rewrite IH; reflexivity]. Qed.

Lemma checksum_lower s :
  valid_address s = true ->
  exists checksum, to_checksum_address s = Some checksum /\ lower checksum = lower s.
Proof.
  unfold valid_address. intros H.
  apply andb_true_iff in H as [H Hhex]. apply andb_true_iff in H as [Hpre Hlen].
  apply startswith_0x in Hpre as [body ->].
  unfold to_checksum_address.
  change (lower (String "0" (String "x" body))) with (String "0" (String "x" (lower body))).
  rewrite startswith_0x_intro.
  change (drop_str 2 (String "0" (String "x" (lower body)))) with (lower body).
  simpl in Hlen, Hhex. rewrite length_lower, Hlen.
  rewrite (is_hex_string_lower _ Hhex). cbn [andb].
  eexists. split; [reflexivity|].
  change ("0x" +:+ ?t) with (String "0" (String "x" t)).
  change (lower (String "0" (String "x" ?t))) with (String "0" (String "x" (lower t))).
  f_equal. f_equal.
  rewrite lower_string_of_list, lower_checksum_case.
  - rewrite map_lower_list, lower_idem. apply string_of_list_ascii_of_string.
  - rewrite !length_list_ascii, length_hex, length_keccak256, length_lower.
    apply Nat.eqb_eq in Hlen. lia.
Qed.

(** X11.  An address among the decoded parameters is resolved through the
    cache entry of its lower-cased form, the one a call to that address
    uses: when the entry is there, formatting the parameter gives the
    cached contract name, or the EIP-55 checksum form of the address for a
    contract known to be unverified, without a request. *)
Theorem address_parameter_uses_cache world s chain st entry :
  valid_address s = true ->
  contract_cache st !! lower s = Some entry ->
  exists checksum,
    to_checksum_address s = Some checksum
    /\ lower checksum = lower s
    /\ format_value world (PStr s) "address" chain st
       = (Returned (match entry with
                    | Some info => ContractInfo.name info
                    | None => checksum
                    end), st).
Proof.
  intros Hvalid Hentry.
  destruct (checksum_lower s Hvalid) as (checksum & Hsum & Hlow).
  exists checksum. split; [exact Hsum|]. split; [exact Hlow|].
  rewrite format_value_eq. change (String.eqb "address" "address") with true.
  cbv iota. rewrite Hsum. unfold of_option, get_contract_name, bind, ret.
  rewrite <- Hlow in Hentry.
  rewrite (get_contract_info_hit world _ chain _ _ Hentry).
  destruct entry; reflexivity.
Qed.

Lemma address_parameter_uses_cache_witness :
  exists checksum,
    to_checksum_address other_address = Some checksum
    /\ lower checksum = lower other_address
    /\ format_value sample_world (PStr other_address) "address" "ETH" known_unverified
       = (Returned checksum, known_unverified).
Proof.
  apply (address_parameter_uses_cache sample_world other_address "ETH" known_unverified None);
    vm_compute; reflexivity.
Defined.

(** ** Lines of the renderer *)

Section Lines.

Variable world : World.



(** X13.  A record of type [create] is never filtered out, whatever its
    [callType] and the [include_static_call] flag: its line is labelled
    [CREATE] and names the contract found at the created address
    [result.address], not at [action.to]. *)
Theorem create_record_line trace_item level chain include_static_call st r st' :
  TraceItem.type trace_item = Some "create" ->
  format_trace_item world trace_item level chain include_static_call st = (Returned r, st') ->
  exists value_str contract_name st1 call_rest output_part,
    get_contract_name world (get (Result.address (item_result trace_item)) "") chain st
    = (Returned contract_name, st1)
    /\ r = Some (line_start level "CREATE" +:+ value_str +:+
                 (contract_name +:+ "." +:+ call_rest) +:+ output_part).
Proof.
  intros Htype H. apply format_trace_item_inv in H.
  assert (Hcreate : is_create trace_item = true)
    by (unfold is_create; apply bool_decide_eq_true; exact Htype).
  unfold emitted, call_label, target in H. rewrite Hcreate in H.
  change (String.eqb "CREATE" "STATICCALL") with false in H.
  rewrite orb_true_r in H.
  destruct H as (value_str & name & st1 & call_rest & output_part & _ & Hname & ->).
  eauto 10.
Qed.

Lemma parse_loop_values items : forall i chain include_static_call formatted_lines st lines st',
  parse_loop world i items chain include_static_call formatted_lines st
  = (Returned lines, st') ->
  Forall (fun trace_item =>
            emitted include_static_call trace_item = true ->
            exists value_str, value_annotation (item_value trace_item) value_str) items.
Proof.
  induction items as [|trace_item rest IH]; intros i chain inc acc st lines st' H;
    [constructor|].
  cbn [parse_loop] in H.
  apply bind_returned in H as (acc1 & st1 & _ & H).
  apply bind_returned in H as (r & st2 & Hitem & H).
  constructor; [|eapply IH; exact H].
  intros Hemit. apply format_trace_item_inv in Hitem. rewrite Hemit in Hitem.
  destruct Hitem as (value_str & _ & _ & _ & _ & Hvalue & _). eauto.
Qed.

(** X14.  One record aborts the whole rendering: when a record that is not
    filtered out has a [value] that is not an integer literal (the empty
    string, ["0x"] alone, ...) or whose quotient by [10 ^ 18] overflows a
    float, [parse_trace] raises and returns no line at all. *)
Theorem bad_value_aborts_rendering items trace_item chain include_static_call st :
  In trace_item items ->
  emitted include_static_call trace_item = true ->
  parse_wei (item_value trace_item) = None
  \/ (exists wei_int, parse_wei (item_value trace_item) = Some wei_int
                      /\ PyFloat.true_divide wei_int (10 ^ 18) = None) ->
  exists e st',
    parse_trace world (TraceData.mk (Some items)) chain include_static_call st
    = (Raised e, st').
Proof.
  intros Hin Hemit Hbad.
  destruct (parse_trace world (TraceData.mk (Some items)) chain include_static_call st)
    as [[lines|e] st'] eqn:H; [|eauto].
  exfalso.
  assert (Hvalues : Forall (fun trace_item =>
            emitted include_static_call trace_item = true ->
            exists value_str, value_annotation (item_value trace_item) value_str) items).
  { destruct items as [|first rest]; [constructor|].
    exact (parse_loop_values _ _ _ _ _ _ _ _ H). }
  rewrite List.Forall_forall in Hvalues.
  destruct (Hvalues _ Hin Hemit) as (value_str & wei_int & f & Hparse & Hdiv & _).
  destruct Hbad as [Hnone|(wei' & Hparse' & Hdiv')]; congruence.
Qed.

(** X15.  The number of lines of a rendering: one for an empty trace;
    otherwise one per record that is not filtered out, and one more when
    the first record carries a non-empty [from]. *)
Theorem rendering_line_count items chain include_static_call st lines st' :
  parse_trace world (TraceData.mk (Some items)) chain include_static_call st
  = (Returned lines, st') ->
  length lines =
  match items with
  | [] => 1%nat
  | first :: _ =>
      ((if nonempty (sender first) then 1 else 0)
       + length (List.filter (emitted include_static_call) items))%nat
  end.
Proof.
  destruct items as [|first rest]; intros H; [injection H as <- _; reflexivity|].
  apply parse_loop_first in H as (header & body & -> & Hbody & Hheader).
  rewrite length_app, (Forall2_length _ _ _ Hbody).
  destruct (nonempty (sender first)).
  - destruct Hheader as (name & st1 & _ & ->). reflexivity.
  - subst header. reflexivity.
Qed.

End Lines.


Lemma create_record_line_witness :
  exists value_str contract_name st1 call_rest output_part,
    get_contract_name sample_world (get (Result.address (item_result create_item)) "")
      "ETH" init_state = (Returned contract_name, st1)
    /\ Some "  1 [CREATE] TetherToken.0x6080() => ()"
       = Some (line_start 1 "CREATE" +:+ value_str +:+
               (contract_name +:+ "." +:+ call_rest) +:+ output_part).
Proof.
  apply (create_record_line sample_world create_item 1 "ETH" false init_state _
           (snd (format_trace_item sample_world create_item 1 "ETH" false init_state))).
  - reflexivity.
  - vm_compute. reflexivity.
Defined.

Lemma bad_value_aborts_rendering_witness :
  exists e st',
    parse_trace silent_world (TraceData.mk (Some [call_item; bad_value_item])) "ETH" true
      init_state = (Raised e, st').
Proof.
  apply (bad_value_aborts_rendering silent_world [call_item; bad_value_item]
           bad_value_item "ETH" true init_state).
  - right. left. reflexivity.
  - reflexivity.
  - left. vm_compute. reflexivity.
Defined.

Lemma rendering_line_count_witness :
  length ["[Sender] " +:+ other_address;
          "0 [CALL] [value: 1.0 Ether] " +:+ sample_address +:+ ".0xa9059cbb() => ()"]
  = 2%nat.
Proof.
  apply (rendering_line_count silent_world [call_item; static_item] "ETH" false init_state _
           (snd (parse_trace silent_world (TraceData.mk (Some [call_item; static_item]))
                   "ETH" false init_state))).
  vm_compute. reflexivity.
Defined.

(** ** The shape of a selector *)

Lemma hex_digit_lower_hex n :
  is_Some (hex_value (hex_digit n)) /\ lower_char (hex_digit n) = hex_digit n.
Proof.
  unfold hex_digit. generalize (Z.to_nat n). intros k.
  do 16 (destruct k as [|k]; [vm_compute; eauto|]).
  cbn [list_ascii_of_string nth]. destruct k; vm_compute; eauto.
Qed.

Lemma hex_is_hex bs : is_hex_string (hex bs) = true /\ lower (hex bs) = hex bs.
Proof.
  unfold is_hex_string, lower. induction bs as [|b rest [IH1 IH2]]; [auto|].
  destruct (hex_digit_lower_hex (b / 16)) as [H1 L1].
  destruct (hex_digit_lower_hex (b mod 16)) as [H2 L2].
  cbn [hex list_ascii_of_string forallb map_string].
  rewrite IH1, IH2, L1, L2, !bool_decide_eq_true_2 by assumption. auto.
Qed.

Lemma take_str_hex n : forall s,
  is_hex_string s = true -> lower s = s ->
  is_hex_string (take_str n s) = true /\ lower (take_str n s) = take_str n s.
Proof.
  unfold is_hex_string, lower.
  induction n as [|n IH]; intros [|c s] Hhex Hlow; try (split; reflexivity).
  cbn [list_ascii_of_string forallb map_string] in Hhex, Hlow.
  apply andb_true_iff in Hhex as [Hc Hs]. injection Hlow as Hc' Hs'.
  destruct (IH s Hs Hs') as [IH1 IH2].
  cbn [take_str list_ascii_of_string forallb map_string].
  rewrite Hc, IH1, Hc', IH2. auto.
Qed.

(** X16.  Every key of the table [parse_abi] builds is [0x] followed by
    eight lower-case hex digits; call data whose selector is written with an
    upper-case digit therefore matches no function of any ABI. *)
Theorem parse_abi_selector_shape abi selector f :
  parse_abi abi !! selector = Some f ->
  startswith selector "0x" = true
  /\ String.length selector = 10%nat
  /\ is_hex_string (drop_str 2 selector) = true
  /\ lower selector = selector
  /\ forall input_data,
       get_function_signature input_data = selector ->
       lower (take_str 10 input_data) = take_str 10 input_data.
Proof.
  intros H.
  pose proof (parse_abi_keys _ _ _ H) as Hlen.
  apply parse_abi_entries in H as (item & _ & _ & -> & Hsig & _).
  set (canonical := signature_string (get (abi_name item) "")
                      (map (fun inp => get (param_type inp) "") (get (abi_inputs item) []))).
  assert (Hsel : selector = String "0" (String "x"
                   (take_str 8 (hex (Keccak.keccak256 (encode canonical)))))).
  { rewrite <- Hsig. reflexivity. }
  destruct (hex_is_hex (Keccak.keccak256 (encode canonical))) as [Hh Hl].
  destruct (take_str_hex 8 _ Hh Hl) as [Hh8 Hl8].
  assert (Hlow : lower selector = selector).
  { rewrite Hsel.
    change (lower (String "0" (String "x" ?t))) with (String "0" (String "x" (lower t))).
    rewrite Hl8. reflexivity. }
  split; [rewrite Hsel; apply startswith_0x_intro|].
  split; [exact Hlen|].
  split; [rewrite Hsel; exact Hh8|].
  split; [exact Hlow|].
  intros input_data Hinput. unfold get_function_signature in Hinput.
  destruct (_ || _); [rewrite <- Hinput in Hlen; discriminate|].
  destruct (Nat.leb_spec 10 (String.length input_data)) as [Hl10|Hl10].
  - rewrite Hinput. exact Hlow.
  - subst input_data. lia.
Qed.

Lemma parse_abi_selector_shape_witness :
  startswith "0xa9059cbb" "0x" = true
  /\ String.length "0xa9059cbb" = 10%nat
  /\ is_hex_string (drop_str 2 "0xa9059cbb") = true
  /\ lower "0xa9059cbb" = "0xa9059cbb"
  /\ forall input_data,
       get_function_signature input_data = "0xa9059cbb" ->
       lower (take_str 10 input_data) = take_str 10 input_data.
Proof.
  apply (parse_abi_selector_shape [transfer_item] "0xa9059cbb" (function_info transfer_item)).
  vm_compute. reflexivity.
Defined.

(** ** The request loop *)

Section RequestLoop.

Import Transport.

Variable D : Type.
Variable replies : nat -> reply D.
Variable max_retries : Z.

Lemma count_requests_app l l' :
  count_requests (l ++ l') = (count_requests l + count_requests l')%nat.
Proof. unfold count_requests. rewrite List.filter_app, length_app. reflexivity. Qed.

Lemma seconds_slept_app l l' :
  seconds_slept (l ++ l') = seconds_slept l + seconds_slept l'.
Proof.
  induction l as [|[|s] l IH]; simpl; [reflexivity | exact IH | rewrite IH; lia].
Qed.

Ltac loop_cases :=
  repeat match goal with
         | |- context [replies ?i] => destruct (replies i) as [status message data| | |]
         | |- context [if ?b then _ else _] => destruct b eqn:?
         end.

Lemma request_loop_requests remaining : forall attempt log,
  (count_requests (snd (request_loop D replies max_retries remaining attempt log))
   <= count_requests log + remaining)%nat.
Proof.
  induction remaining as [|remaining IH]; intros attempt log; cbn [request_loop];
    [simpl; lia|].
  loop_cases; cbn [snd];
    try (etransitivity; [apply IH|]);
    rewrite ?count_requests_app;
    change (count_requests [Request]) with 1%nat;
    repeat match goal with
           | |- context [count_requests [Sleep ?s]] =>
               change (count_requests [Sleep s]) with 0%nat
           end; lia.
Qed.

(** X17.  [_make_etherscan_request] sends at most [max_retries] requests,
    whatever the replies; with [max_retries] zero or negative it sends none
    and returns [None]. *)
Theorem request_loop_is_bounded :
  (count_requests (snd (_make_etherscan_request D replies max_retries))
   <= Z.to_nat max_retries)%nat
  /\ (max_retries <= 0 -> _make_etherscan_request D replies max_retries = (None, [])).
Proof.
  split.
  - apply (request_loop_requests (Z.to_nat max_retries) 0 []).
  - intros H. unfold _make_etherscan_request.
    replace (Z.to_nat max_retries) with 0%nat by lia. reflexivity.
Qed.

Lemma request_loop_answer remaining : forall (a : nat) log d,
  fst (request_loop D replies max_retries remaining (Z.of_nat a) log) = Some d
  <-> exists i message,
        (i < remaining)%nat
        /\ replies (a + i)%nat = Answer (Some "1") message d
        /\ forall j, (j < i)%nat -> retried D (replies (a + j)%nat).
Proof.
  induction remaining as [|remaining IH]; intros a log d.
  { simpl. split; [discriminate | intros (i & m & Hi & _); lia]. }
  cbn [request_loop]. rewrite Nat2Z.id.
  replace (Z.of_nat a + 1) with (Z.of_nat (S a)) by lia.
  assert (Hnext :
    (exists i message,
        (i < remaining)%nat
        /\ replies (S a + i)%nat = Answer (Some "1") message d
        /\ forall j, (j < i)%nat -> retried D (replies (S a + j)%nat))
    -> retried D (replies a)
    -> exists i message,
        (i < S remaining)%nat
        /\ replies (a + i)%nat = Answer (Some "1") message d
        /\ forall j, (j < i)%nat -> retried D (replies (a + j)%nat)).
  { intros (i & m & Hi & Hr & Hbefore) Ha. exists (S i), m.
    split; [lia|]. split; [rewrite <- Hr; f_equal; lia|].
    intros [|j] Hj; [rewrite Nat.add_0_r; exact Ha|].
    replace (a + S j)%nat with (S a + j)%nat by lia. apply Hbefore. lia. }
  assert (Hback :
    (exists i message,
        (i < S remaining)%nat
        /\ replies (a + i)%nat = Answer (Some "1") message d
        /\ forall j, (j < i)%nat -> retried D (replies (a + j)%nat))
    -> (exists message, replies a = Answer (Some "1") message d)
       \/ (retried D (replies a)
           /\ exists i message,
               (i < remaining)%nat
               /\ replies (S a + i)%nat = Answer (Some "1") message d
               /\ forall j, (j < i)%nat -> retried D (replies (S a + j)%nat))).
  { intros ([|i] & m & Hi & Hr & Hbefore).
    - left. rewrite Nat.add_0_r in Hr. eauto.
    - right. split; [rewrite <- (Nat.add_0_r a); apply Hbefore; lia|].
      exists i, m. split; [lia|]. split; [rewrite <- Hr; f_equal; lia|].
      intros j Hj. replace (S a + j)%nat with (a + S j)%nat by lia. apply Hbefore. lia. }
  destruct (replies a) as [status message data| | |] eqn:Hreply.
  - destruct (bool_decide (status = Some "1")) eqn:H1.
    { apply bool_decide_eq_true in H1. subst status. cbn [fst]. split.
      - intros [= <-]. exists 0%nat, message. rewrite Nat.add_0_r.
        split; [lia|]. split; [exact Hreply|]. intros j Hj. lia.
      - intros Hex. apply Hback in Hex as [[m Hm]|[[Hne _] _]];
          [congruence | congruence]. }
    apply bool_decide_eq_false in H1.
    destruct (bool_decide (status = Some "0")) eqn:H0.
    + apply bool_decide_eq_true in H0.
      destruct (contains_str "rate limit" (lower (get message "Unknown error"))) eqn:Hrate.
      * rewrite IH. split.
        -- intros Hex. apply (Hnext Hex). split; auto.
        -- intros Hex. apply Hback in Hex as [[m Hm]|[_ Hex]]; [congruence | exact Hex].
      * cbn [fst]. split; [discriminate|].
        intros Hex. apply Hback in Hex as [[m Hm]|[[_ Hr] _]]; [congruence|].
        rewrite (Hr H0) in Hrate. discriminate.
    + apply bool_decide_eq_false in H0. rewrite IH. split.
      * intros Hex. apply (Hnext Hex). split; [exact H1 | intros; contradiction].
      * intros Hex. apply Hback in Hex as [[m Hm]|[_ Hex]]; [congruence | exact Hex].
  - destruct (Z.of_nat a <? max_retries - 1); rewrite IH; (split;
      [ intros Hex; apply (Hnext Hex); exact I
      | intros Hex; apply Hback in Hex as [[m Hm]|[_ Hex]]; [congruence | exact Hex] ]).
  - destruct (Z.of_nat a <? max_retries - 1); rewrite IH; (split;
      [ intros Hex; apply (Hnext Hex); exact I
      | intros Hex; apply Hback in Hex as [[m Hm]|[_ Hex]]; [congruence | exact Hex] ]).
  - cbn [fst]. split; [discriminate|].
    intros Hex. apply Hback in Hex as [[m Hm]|[Hr _]]; [congruence | contradiction].
Qed.

(** X18.  [_make_etherscan_request] returns an answer exactly when some
    attempt before the [max_retries]-th is answered with status ["1"] and
    every attempt before it was one the loop retries: a time-out, a request
    error, a status-["0"] answer whose message mentions a rate limit, or an
    answer with any other status.  The answer returned is that of the first
    such attempt; an API error or an unexpected exception stops the loop. *)
Theorem request_loop_result d :
  fst (_make_etherscan_request D replies max_retries) = Some d
  <-> exists i message,
        (i < Z.to_nat max_retries)%nat
        /\ replies i = Answer (Some "1") message d
        /\ forall j, (j < i)%nat -> retried D (replies j).
Proof. apply (request_loop_answer (Z.to_nat max_retries) 0 [] d). Qed.

Lemma request_loop_sleeps remaining : forall attempt log,
  Z.of_nat remaining + attempt = max_retries -> 0 <= attempt ->
  seconds_slept (snd (request_loop D replies max_retries remaining attempt log))
  <= seconds_slept log
     + match remaining with
       | O => 0
       | S _ => max_retries * max_retries - attempt * attempt - attempt
       end.
Proof.
  induction remaining as [|remaining IH]; intros attempt log Hsum Hpos;
    cbn [request_loop]; [simpl; lia|].
  assert (Hstep : forall log',
    seconds_slept log' <= seconds_slept log
      + (if attempt <? max_retries - 1 then 2 * (attempt + 1) else attempt + 1) ->
    seconds_slept (snd (request_loop D replies max_retries remaining (attempt + 1) log'))
    <= seconds_slept log + (max_retries * max_retries - attempt * attempt - attempt)).
  { intros log' Hlog.
    etransitivity; [apply IH; lia|].
    destruct (Z.ltb_spec attempt (max_retries - 1)); destruct remaining; nia. }
  assert (Hend : forall log',
    seconds_slept log' = seconds_slept log ->
    seconds_slept log' <= seconds_slept log
                          + (max_retries * max_retries - attempt * attempt - attempt)).
  { intros log' ->. nia. }
  loop_cases; cbn [snd];
    first [ apply Hstep | apply Hend ];
    rewrite ?seconds_slept_app; simpl;
    repeat match goal with |- context [?a <? ?b] => destruct (Z.ltb_spec a b) end; lia.
Qed.

(** X19.  The back-off sleeps of one [_make_etherscan_request] add up to at
    most [max_retries * max_retries] seconds. *)
Theorem request_loop_backoff :
  0 <= max_retries ->
  seconds_slept (snd (_make_etherscan_request D replies max_retries))
  <= max_retries * max_retries.
Proof.
  intros H. unfold _make_etherscan_request.
  pose proof (request_loop_sleeps (Z.to_nat max_retries) 0 [] ltac:(lia) ltac:(lia)) as Hs.
  simpl seconds_slept at 2 in Hs. destruct (Z.to_nat max_retries); nia.
Qed.

End RequestLoop.

Lemma request_loop_is_bounded_witness :
  Transport._make_etherscan_request Z sample_replies 0 = (None, []).
Proof. apply (request_loop_is_bounded Z sample_replies 0). lia. Defined.

Lemma request_loop_result_witness :
  fst (Transport._make_etherscan_request Z sample_replies 3) = Some 42.
Proof.
  apply (request_loop_result Z sample_replies 3 42).
  exists 2%nat, (Some "OK"). split; [simpl; lia|]. split; [reflexivity|].
  intros [|[|j]] Hj; [exact I | | lia].
  split; [discriminate | intros _; vm_compute; reflexivity].
Defined.

Lemma request_loop_backoff_witness :
  Transport.seconds_slept (snd (Transport._make_etherscan_request Z sample_replies 3))
  <= 3 * 3.
Proof. apply (request_loop_backoff Z sample_replies 3). lia. Defined.

(** ** File names *)

Lemma safe_char_safe c : is_safe_char (if is_safe_char c then c else "_"%char) = true.
Proof. destruct (is_safe_char c) eqn:H; [exact H | reflexivity]. Qed.

(** X20.  The file name [save_source_code] derives from a contract name
    has as many characters as the name, each of them one the pattern
    keeps (a letter, a digit, [_], [-] or [.]); it holds no path
    separator, and sanitising it again changes nothing. *)
Theorem safe_name_is_safe contract_name :
  String.length (safe_name contract_name) = String.length contract_name
  /\ forallb is_safe_char (list_ascii_of_string (safe_name contract_name)) = true
  /\ ~ In "/"%char (list_ascii_of_string (safe_name contract_name))
  /\ safe_name (safe_name contract_name) = safe_name contract_name.
Proof.
  unfold safe_name.
  induction contract_name as [|c s (IHlen & IHsafe & IHslash & IHidem)].
  - repeat split. intros [].
  - cbn [map_string String.length list_ascii_of_string forallb].
    rewrite IHlen, IHsafe, IHidem, !safe_char_safe.
    split; [reflexivity|]. split; [reflexivity|]. split; [|reflexivity].
    intros [H|H]; [|exact (IHslash H)].
    pose proof (safe_char_safe c) as Hc. rewrite H in Hc. discriminate.
Qed.

(** ** Formatting a parameter list *)

Section Parameters.

Variable world : World.

Lemma format_each_map params : forall chain formatted_params st,
  format_each world params chain formatted_params st
  = (do formatted <- map_M (format_parameter world chain) params ;;
     ret (formatted_params ++ formatted)%list) st.
Proof.
  induction params as [|[[param_name param_type] param_value] rest IH];
    intros chain acc st.
  - cbn [format_each map_M]. unfold bind, ret. rewrite app_nil_r. reflexivity.
  - cbn [format_each map_M format_parameter]. unfold bind, ret.
    destruct (format_value world param_value param_type chain st) as [[s|e] st1];
      [|reflexivity].
    rewrite IH. unfold bind, ret.
    destruct (map_M (format_parameter world chain) rest st1) as [[l|e] st2];
      [|reflexivity].
    rewrite <- app_assoc. reflexivity.
Qed.

(** X21.  [format_parameters] formats the parameters from left to right,
    each in the state the previous one left, and joins the [name=value]
    texts with [", "]; the first parameter that fails to format aborts the
    whole list. *)
Theorem format_parameters_join params chain st :
  format_parameters world params chain st
  = (do formatted <- map_M (format_parameter world chain) params ;;
     ret (join ", " formatted)) st.
Proof.
  unfold format_parameters. destruct params as [|param rest]; [reflexivity|].
  unfold bind at 1. rewrite format_each_map. unfold bind, ret.
  destruct (map_M (format_parameter world chain) (param :: rest) st) as [[l|e] st1];
    reflexivity.
Qed.

End Parameters.

(** ** Amounts that fit 256 bits *)

Lemma round_ratio_fits p :
  0 <= p < 2 ^ 256 -> exists m e, PyFloat.round_ratio p (10 ^ 18) = Some (m, e).
Proof.
  intros [Hp0 Hp]. unfold PyFloat.round_ratio.
  destruct (Z.eqb_spec p 0) as [|Hne]; [eauto|].
  assert (Hlog : Z.log2 (10 ^ 18) = 59) by (vm_compute; reflexivity).
  rewrite Hlog.
  assert (Hl : 0 <= Z.log2 p < 256).
  { split; [apply Z.log2_nonneg | apply Z.log2_lt_pow2; lia]. }
  match goal with |- context [Z.max ?x (-1074)] => set (e1 := x) end.
  assert (He1 : e1 <= Z.log2 p - 111).
  { subst e1. match goal with |- context [if ?b then _ else _] => destruct b end; lia. }
  destruct (PyFloat.scale p (10 ^ 18) (Z.max e1 (-1074))) as [n d].
  destruct (Z.eqb_spec (PyFloat.round_half_even n d) (2 ^ 53)) as [_|_];
    match goal with |- context [971 <? ?e] => destruct (Z.ltb_spec 971 e) end;
    eauto; lia.
Qed.

(** X22.  An amount of wei that fits 256 bits never overflows the float:
    a record whose [value] is the literal of such an amount, in hex or in
    decimal, gets its annotation computed without an exception. *)
Theorem uint256_value_is_ok trace_item wei_int :
  parse_wei (item_value trace_item) = Some wei_int ->
  Z.abs wei_int < 2 ^ 256 ->
  (exists ether_value, PyFloat.true_divide wei_int (10 ^ 18) = Some ether_value)
  /\ value_ok trace_item = true.
Proof.
  intros Hparse Hfit.
  assert (Hdiv : exists ether_value,
            PyFloat.true_divide wei_int (10 ^ 18) = Some ether_value).
  { unfold PyFloat.true_divide.
    destruct (round_ratio_fits (Z.abs wei_int)) as (m & e & ->); [lia | eauto]. }
  split; [exact Hdiv|].
  unfold value_ok. fold (item_action trace_item). fold (item_value trace_item).
  rewrite Hparse. destruct Hdiv as [f Hf]. rewrite Hf.
  rewrite bool_decide_eq_true_2 by eauto. apply orb_true_r.
Qed.

Lemma uint256_value_is_ok_witness :
  (exists ether_value, PyFloat.true_divide (10 ^ 18) (10 ^ 18) = Some ether_value)
  /\ value_ok call_item = true.
Proof.
  apply (uint256_value_is_ok call_item (10 ^ 18)).
  - vm_compute. reflexivity.
  - vm_compute. reflexivity.
Defined.
